(** * A reliable-queue pipeline: the ingestor and the processor

    Shallow embedding of [nfl_ingestor/main.py] and [nfl_processor/main.py].

    Both programs talk to a RabbitMQ broker through the pika client.  The
    client calls are the observable behaviour of the programs, so the
    embedding is a small monad of computations that
    - emit a chronological list of [event]s (every client call, every log
      line), and
    - ask an environment [Env] how each client call ends: it returns, or it
      raises a Python exception ([KeyboardInterrupt] included: CTRL+C is
      observed at the blocking calls).
    Loops that the source writes as [while True] take a fuel argument; a
    computation whose fuel is used up is still [Running].

    Left out: the set-up of the logger and the layout of its lines (a log
    call is an event that carries the message), the reading of the process
    environment by [load_dotenv] and [int()] (the functions start from the
    values read), and the values of floating-point numbers. *)

From Stdlib Require Import ZArith List Bool Lia String Ascii.
From Stdlib Require Import DecimalString.
From Stdlib Require DecimalPos DecimalZ DecimalFacts.
Import ListNotations.
Local Open Scope string_scope.
Local Open Scope list_scope.
Local Open Scope Z_scope.

(** String concatenation, as Python's [+] on [str] and its f-strings. *)
Infix "+:+" := String.append (at level 60, right associativity).

(** ** Python exceptions *)

Module Py.

(** The exception classes that the two programs can meet.  Only the class
    hierarchy matters: [KeyboardInterrupt] and [SystemExit] derive from
    [BaseException] and are not caught by [except Exception];
    [JSONDecodeError] and [UnicodeDecodeError] both derive from
    [ValueError]. *)
Inductive exn_class : Type :=
| KeyboardInterrupt
| SystemExit
| ValueError
| JSONDecodeError
| UnicodeDecodeError
| AttributeError
| TypeError
| AMQPConnectionError
| AMQPChannelError
| OtherException.

Record exn : Type := mk_exn { exn_cls : exn_class; exn_msg : string }.

(** [isinstance(e, Exception)] *)
Definition is_Exception (e : exn) : bool :=
  match exn_cls e with
  | KeyboardInterrupt | SystemExit => false
  | _ => true
  end.

(** [isinstance(e, json.JSONDecodeError)] *)
Definition is_JSONDecodeError (e : exn) : bool :=
  match exn_cls e with
  | JSONDecodeError => true
  | _ => false
  end.

(** [isinstance(e, KeyboardInterrupt)] *)
Definition is_KeyboardInterrupt (e : exn) : bool :=
  match exn_cls e with
  | KeyboardInterrupt => true
  | _ => false
  end.

(** [str(e)] *)
Definition str (e : exn) : string := exn_msg e.

(** [str(n)] for an [int]. *)
Definition str_of_int (n : Z) : string := NilZero.string_of_int (Z.to_int n).

(** [min(a, b)] on [int]s. *)
Definition min (a b : Z) : Z := if b <? a then b else a.

End Py.

(** ** JSON values

    What [json.loads] builds: [dict] keeps the insertion order of its keys
    and one entry per key. *)

#[warnings="-register-all"] Inductive json : Type :=
| JNull
| JBool (b : bool)
| JInt (n : Z)
| JFloat (lexeme : string)
| JStr (s : string)
| JArr (items : list json)
| JObj (fields : list (string * json)).

(** [d[k] = v] on a [dict] kept as an association list in insertion order. *)
Fixpoint dict_set (d : list (string * json)) (k : string) (v : json)
  : list (string * json) :=
  match d with
  | [] => [(k, v)]
  | (k', v') :: d' =>
      if String.eqb k' k then (k', v) :: d' else (k', v') :: dict_set d' k v
  end.

(** [d.get(k)]: the value, or [None]. *)
Fixpoint dict_get (d : list (string * json)) (k : string) : json :=
  match d with
  | [] => JNull
  | (k', v) :: d' => if String.eqb k' k then v else dict_get d' k
  end.

(** ** The JSON codec

    [json.loads] and [json.dumps] of the Python standard library with their
    default options, and the strict UTF-8 decoder.  A [str] is kept as its
    UTF-8 bytes.  Floating-point values are kept as their lexemes; the text
    and position of the decoder's error messages, its recursion limit and
    the limit on the length of integer literals are not modelled. *)

Module Json.

Definition code (c : ascii) : N := N_of_ascii c.

Definition chr (n : N) : ascii := ascii_of_N n.

Definition between (lo n hi : N) : bool := ((lo <=? n) && (n <=? hi))%N.

(** The double quote. *)
Definition dq : ascii := chr 34.

Definition is_digit (c : ascii) : bool := between 48 (code c) 57.

(** The whitespace of the JSON grammar: space, tab, line feed, carriage
    return. *)
Definition is_ws (c : ascii) : bool :=
  let n := code c in ((n =? 32) || (n =? 9) || (n =? 10) || (n =? 13))%N.

Fixpoint skip_ws (s : string) : string :=
  match s with
  | String c s' => if is_ws c then skip_ws s' else s
  | EmptyString => s
  end.

Fixpoint all_digits (s : string) : bool :=
  match s with
  | String c s' => is_digit c && all_digits s'
  | EmptyString => true
  end.

(** The characters that a string literal holds as they are: printable
    ASCII, without the quote and the backslash. *)
Definition plain_char (c : ascii) : bool :=
  between 32 (code c) 126 && negb (code c =? 34)%N && negb (code c =? 92)%N.

Fixpoint all_plain (s : string) : bool :=
  match s with
  | String c s' => plain_char c && all_plain s'
  | EmptyString => true
  end.

Fixpoint all_ascii (s : string) : bool :=
  match s with
  | String c s' => (code c <? 128)%N && all_ascii s'
  | EmptyString => true
  end.

(** *** UTF-8 *)

Definition cont (c : ascii) : bool := between 128 (code c) 191.

(** [bytes.decode('utf-8')] accepts exactly the well-formed sequences:
    no overlong form, no surrogate, nothing above U+10FFFF. *)
Fixpoint utf8_valid (s : string) : bool :=
  match s with
  | EmptyString => true
  | String a s1 =>
      let x := code a in
      if (x <? 128)%N then utf8_valid s1
      else match s1 with
      | EmptyString => false
      | String b s2 =>
          let y := code b in
          if between 194 x 223 then cont b && utf8_valid s2
          else match s2 with
          | EmptyString => false
          | String c s3 =>
              if between 224 x 239 then
                (if (x =? 224)%N then between 160 y 191
                 else if (x =? 237)%N then between 128 y 159
                 else cont b)
                && cont c && utf8_valid s3
              else match s3 with
              | EmptyString => false
              | String d s4 =>
                  between 240 x 244
                  && (if (x =? 240)%N then between 144 y 191
                      else if (x =? 244)%N then between 128 y 143
                      else cont b)
                  && cont c && cont d && utf8_valid s4
              end
          end
      end
  end.

(** The UTF-8 bytes of a code point; a lone surrogate keeps its
    three-byte form. *)
Definition utf8_encode (u : N) : string :=
  (if u <? 128 then String (chr u) ""
   else if u <? 2048 then
     String (chr (192 + u / 64)) (String (chr (128 + u mod 64)) "")
   else if u <? 65536 then
     String (chr (224 + u / 4096))
       (String (chr (128 + (u / 64) mod 64)) (String (chr (128 + u mod 64)) ""))
   else
     String (chr (240 + u / 262144))
       (String (chr (128 + (u / 4096) mod 64))
          (String (chr (128 + (u / 64) mod 64))
             (String (chr (128 + u mod 64)) ""))))%N.

(** *** Serialisation: [json.dumps(v)] *)

Definition hex_digit (d : N) : ascii :=
  (if d <? 10 then chr (48 + d) else chr (87 + d))%N.

(** [\uXXXX] *)
Definition escape_u (u : N) : string :=
  (String "\" (String "u"
     (String (hex_digit (u / 4096))
        (String (hex_digit ((u / 256) mod 16))
           (String (hex_digit ((u / 16) mod 16))
              (String (hex_digit (u mod 16)) ""))))))%N.

(** A code point outside the ASCII range, as one escape or as a surrogate
    pair. *)
Definition escape_code_point (u : N) : string :=
  (if u <? 65536 then escape_u u
   else let v := u - 65536 in
        escape_u (55296 + v / 1024) +:+ escape_u (56320 + v mod 1024))%N.

(** The body of a string literal with [ensure_ascii]: everything outside
    the printable ASCII range, the quote and the backslash are escaped. *)
Fixpoint escape (s : string) : string :=
  match s with
  | EmptyString => ""
  | String a s1 =>
      let x := code a in
      if (x <? 128)%N then
        (if (x =? 34)%N then String "\" (String dq "")
         else if (x =? 92)%N then String "\" (String "\" "")
         else if (x =? 10)%N then String "\" (String "n" "")
         else if (x =? 13)%N then String "\" (String "r" "")
         else if (x =? 9)%N then String "\" (String "t" "")
         else if (x =? 8)%N then String "\" (String "b" "")
         else if (x =? 12)%N then String "\" (String "f" "")
         else if between 32 x 126 then String a ""
         else escape_u x) +:+ escape s1
      else match s1 with
      | EmptyString => escape_u x
      | String b s2 =>
          let y := (code b mod 64)%N in
          if (x <? 224)%N then
            escape_code_point ((x mod 32) * 64 + y) +:+ escape s2
          else match s2 with
          | EmptyString => escape_u x +:+ escape s1
          | String c s3 =>
              let z := (code c mod 64)%N in
              if (x <? 240)%N then
                escape_code_point ((x mod 16) * 4096 + y * 64 + z) +:+ escape s3
              else match s3 with
              | EmptyString => escape_u x +:+ escape s1
              | String d s4 =>
                  let w := (code d mod 64)%N in
                  escape_code_point
                    ((x mod 8) * 262144 + y * 4096 + z * 64 + w) +:+ escape s4
              end
          end
      end
  end.

Definition quote (s : string) : string :=
  String dq (escape s +:+ String dq "").

(** The items of a list and the pairs of a [dict], separated by [", "]. *)
Definition dumps_items (dump : json -> string) : list json -> string :=
  fix go (l : list json) : string :=
    match l with
    | [] => ""
    | x :: l' => dump x +:+ match l' with [] => "" | _ => ", " +:+ go l' end
    end.

Definition dumps_pairs (dump : json -> string)
  : list (string * json) -> string :=
  fix go (l : list (string * json)) : string :=
    match l with
    | [] => ""
    | (k, x) :: l' =>
        quote k +:+ ": " +:+ dump x
        +:+ match l' with [] => "" | _ => ", " +:+ go l' end
    end.

Fixpoint dumps (v : json) : string :=
  match v with
  | JNull => "null"
  | JBool true => "true"
  | JBool false => "false"
  | JInt n => Py.str_of_int n
  | JFloat lexeme => lexeme
  | JStr s => quote s
  | JArr items => "[" +:+ dumps_items dumps items +:+ "]"
  | JObj fields => "{" +:+ dumps_pairs dumps fields +:+ "}"
  end.

(** *** Parsing: [json.loads(s)] *)

(** The longest prefix of decimal digits, and the rest. *)
Fixpoint take_digits (s : string) : string * string :=
  match s with
  | String c s' =>
      if is_digit c
      then let (ds, r) := take_digits s' in (String c ds, r)
      else ("", s)
  | EmptyString => ("", s)
  end.

Definition hex_value (c : ascii) : option N :=
  let n := code c in
  (if between 48 n 57 then Some (n - 48)
   else if between 97 n 102 then Some (n - 87)
   else if between 65 n 70 then Some (n - 55)
   else None)%N.

(** Four hexadecimal digits. *)
Definition hex4 (s : string) : option (N * string) :=
  match s with
  | String a (String b (String c (String d r))) =>
      match hex_value a, hex_value b, hex_value c, hex_value d with
      | Some x, Some y, Some z, Some w =>
          Some (x * 4096 + y * 256 + z * 16 + w, r)%N
      | _, _, _, _ => None
      end
  | _ => None
  end.

(** A [\uXXXX] escape whose [\u] was read; a high surrogate followed by the
    escape of a low one is one code point. *)
Definition unicode_escape (s : string) : option (N * string) :=
  match hex4 s with
  | Some (u, r) =>
      if between 55296 u 56319 then
        match r with
        | String "\" (String "u" r') =>
            match hex4 r' with
            | Some (u2, r2) =>
                if between 56320 u2 57343
                then Some (65536 + (u - 55296) * 1024 + (u2 - 56320), r2)%N
                else Some (u, r)
            | None => Some (u, r)
            end
        | _ => Some (u, r)
        end
      else Some (u, r)
  | None => None
  end.

(** The characters of a string literal after its opening quote, up to and
    including the closing one. *)
Fixpoint scanstring (fuel : nat) (s : string) : option (string * string) :=
  match fuel with
  | O => None
  | S fuel' =>
      match s with
      | EmptyString => None
      | String c s' =>
          let n := code c in
          if (n =? 34)%N then Some ("", s')
          else if (n <? 32)%N then None
          else if (n =? 92)%N then
            match s' with
            | EmptyString => None
            | String e s'' =>
                let m := code e in
                let plain (x : N) :=
                  match scanstring fuel' s'' with
                  | Some (t, r) => Some (String (chr x) t, r)
                  | None => None
                  end in
                if (m =? 34)%N then plain 34%N
                else if (m =? 92)%N then plain 92%N
                else if (m =? 47)%N then plain 47%N
                else if (m =? 98)%N then plain 8%N
                else if (m =? 102)%N then plain 12%N
                else if (m =? 110)%N then plain 10%N
                else if (m =? 114)%N then plain 13%N
                else if (m =? 116)%N then plain 9%N
                else if (m =? 117)%N then
                  match unicode_escape s'' with
                  | Some (u, r) =>
                      match scanstring fuel' r with
                      | Some (t, r') => Some (utf8_encode u +:+ t, r')
                      | None => None
                      end
                  | None => None
                  end
                else None
            end
          else
            match scanstring fuel' s' with
            | Some (t, r) => Some (String c t, r)
            | None => None
            end
      end
  end.

Definition starts_with (p s : string) : option string :=
  if String.prefix p s
  then Some (String.substring (String.length p) (String.length s - String.length p)%nat s)
  else None.

(** A number: an optional minus sign, an integer part without a leading
    zero, an optional fraction, an optional exponent. *)
Definition scan_number (s : string) : option (json * string) :=
  let (sign, s0) :=
    match s with String "-" r => ("-", r) | _ => ("", s) end in
  let int_part :=
    match s0 with
    | String c r =>
        if (code c =? 48)%N then Some (String c "", r)
        else if is_digit c
        then let (ds, r') := take_digits r in Some (String c ds, r')
        else None
    | EmptyString => None
    end in
  match int_part with
  | None => None
  | Some (ip, r1) =>
      let (frac, r2) :=
        match r1 with
        | String "." r =>
            match take_digits r with
            | (EmptyString, _) => ("", r1)
            | (fs, r') => ("." +:+ fs, r')
            end
        | _ => ("", r1)
        end in
      let (exp, r3) :=
        match r2 with
        | String e r =>
            if ((code e =? 101) || (code e =? 69))%N then
              let (sg, r') :=
                match r with
                | String "+" t => ("+", t)
                | String "-" t => ("-", t)
                | _ => ("", r)
                end in
              match take_digits r' with
              | (EmptyString, _) => ("", r2)
              | (ds, r'') => (String e (sg +:+ ds), r'')
              end
            else ("", r2)
        | EmptyString => ("", r2)
        end in
      match frac, exp with
      | EmptyString, EmptyString =>
          match NilZero.int_of_string (sign +:+ ip) with
          | Some i => Some (JInt (Z.of_int i), r3)
          | None => None
          end
      | _, _ => Some (JFloat (sign +:+ ip +:+ frac +:+ exp), r3)
      end
  end.

Definition scan_constant (s : string) : option (json * string) :=
  match starts_with "null" s with Some r => Some (JNull, r) | None =>
  match starts_with "true" s with Some r => Some (JBool true, r) | None =>
  match starts_with "false" s with Some r => Some (JBool false, r) | None =>
  match scan_number s with Some x => Some x | None =>
  match starts_with "NaN" s with Some r => Some (JFloat "NaN", r) | None =>
  match starts_with "Infinity" s with Some r => Some (JFloat "Infinity", r) | None =>
  match starts_with "-Infinity" s with Some r => Some (JFloat "-Infinity", r) | None =>
  None end end end end end end end.

(** [scan_once] reads one value; [scan_items] the rest of an array whose
    next item is due; [scan_pairs] the rest of an object whose next key is
    due.  A key that occurs again replaces the value of the first
    occurrence. *)
Fixpoint scan_once (fuel : nat) (s : string) : option (json * string) :=
  match fuel with
  | O => None
  | S fuel' =>
      match s with
      | String c r =>
          let n := code c in
          if (n =? 34)%N then
            match scanstring (String.length r) r with
            | Some (t, r') => Some (JStr t, r')
            | None => None
            end
          else if (n =? 123)%N then
            match skip_ws r with
            | String "}" r' => Some (JObj [], r')
            | r' => scan_pairs fuel' r' []
            end
          else if (n =? 91)%N then
            match skip_ws r with
            | String "]" r' => Some (JArr [], r')
            | r' => scan_items fuel' r' []
            end
          else scan_constant s
      | EmptyString => None
      end
  end
with scan_items (fuel : nat) (s : string) (acc : list json)
  : option (json * string) :=
  match fuel with
  | O => None
  | S fuel' =>
      match scan_once fuel' s with
      | Some (v, r) =>
          match skip_ws r with
          | String "," r' => scan_items fuel' (skip_ws r') (acc ++ [v])
          | String "]" r' => Some (JArr (acc ++ [v]), r')
          | _ => None
          end
      | None => None
      end
  end
with scan_pairs (fuel : nat) (s : string) (acc : list (string * json))
  : option (json * string) :=
  match fuel with
  | O => None
  | S fuel' =>
      match s with
      | String c r =>
          if negb (code c =? 34)%N then None else
          match scanstring (String.length r) r with
          | Some (k, r1) =>
              match skip_ws r1 with
              | String ":" r2 =>
                  match scan_once fuel' (skip_ws r2) with
                  | Some (v, r3) =>
                      match skip_ws r3 with
                      | String "," r4 =>
                          scan_pairs fuel' (skip_ws r4) (dict_set acc k v)
                      | String "}" r4 => Some (JObj (dict_set acc k v), r4)
                      | _ => None
                      end
                  | None => None
                  end
              | _ => None
              end
          | None => None
          end
      | EmptyString => None
      end
  end.

(** [json.loads(s)]: one value between optional whitespace, and nothing
    else; [None] is a [JSONDecodeError]. *)
Definition loads (s : string) : option json :=
  match scan_once (2 * String.length s + 2) (skip_ws s) with
  | Some (v, r) =>
      match skip_ws r with
      | EmptyString => Some v
      | _ => None
      end
  | None => None
  end.

End Json.

(** ** Events and environments *)

(** [pika.ConnectionParameters] as the source fills it in. *)
Record ConnectionParameters : Type := mk_params {
  host : string;
  port : Z;
  credentials : string * string;
  heartbeat : Z;
  blocked_connection_timeout : Z
}.

(** A calendar instant as [datetime.utcnow()] returns it. *)
Record datetime : Type := mk_datetime {
  year : N; month : N; day : N;
  hour : N; minute : N; second : N; microsecond : N
}.

(** A connection is named by the number of events that preceded the call
    that opened it; a channel by its connection. *)
Definition Connection : Type := nat.
Definition Channel : Type := Connection.

Inductive event : Type :=
| LogInfo (msg : string)
| LogError (msg : string)
| Connect (p : ConnectionParameters)        (* pika.BlockingConnection(p) *)
| Sleep (secs : Z)                          (* time.sleep(secs) *)
| OpenChannel (c : Connection)              (* c.channel() *)
| QueueDeclare (queue : string) (durable : bool)
| BasicPublish (exchange routing_key body : string) (delivery_mode : Z)
| BasicConsume (queue : string)
| BasicQos (prefetch_count : Z)
| WaitDelivery                              (* one turn of start_consuming *)
| Dispatch (delivery_tag : N) (body : string)
| StopConsuming
| BasicAck (delivery_tag : N)
| BasicNack (delivery_tag : N) (requeue : bool)
| Close (c : Connection).                   (* c.close() *)

(** The environment decides, from the history of events so far, how the next
    client call ends ([None]: it returns), what the clock shows, and which
    delivery the event loop hands to the callback ([None]: the consumer was
    cancelled, the loop ends). *)
Record Env : Type := mk_env {
  raises : list event -> event -> option Py.exn;
  utcnow : list event -> datetime;
  delivery : list event -> option (N * string)
}.

(** ** Computations *)

Inductive res (A : Type) : Type :=
| Ok (a : A)
| Raise (e : Py.exn)
| Running.
Arguments Ok {A} a.
Arguments Raise {A} e.
Arguments Running {A}.

(** A computation reads the environment and the history, and yields a result
    with the events it emitted, oldest first. *)
Definition M (A : Type) : Type := Env -> list event -> res A * list event.

Definition ret {A} (a : A) : M A := fun _ _ => (Ok a, []).

Definition bind {A B} (m : M A) (k : A -> M B) : M B :=
  fun E h =>
    match m E h with
    | (Ok a, es) => let (r, es') := k a E (h ++ es) in (r, es ++ es')
    | (Raise e, es) => (Raise e, es)
    | (Running, es) => (Running, es)
    end.

Notation "x <- m ;; k" := (bind m (fun x => k))
  (at level 61, m at next level, right associativity).
Notation "m ;; k" := (bind m (fun _ => k))
  (at level 61, right associativity).

Definition raise {A} (e : Py.exn) : M A := fun _ _ => (Raise e, []).

Definition running {A} : M A := fun _ _ => (Running, []).

(** A client call: recorded, then it returns or raises as the environment
    says. *)
Definition call (ev : event) : M unit :=
  fun E h =>
    (match raises E h ev with None => Ok tt | Some e => Raise e end, [ev]).

(** The logging module traps the errors of its handlers: a log call is
    recorded and returns. *)
Definition logger_info (msg : string) : M unit := fun _ _ => (Ok tt, [LogInfo msg]).
Definition logger_error (msg : string) : M unit := fun _ _ => (Ok tt, [LogError msg]).

Definition datetime_utcnow : M datetime := fun E h => (Ok (utcnow E h), []).

(** [try: body except <matching e>: handler e].  An exception that no clause
    matches ([handler e = None]) propagates. *)
Definition try_except {A} (body : M A) (handler : Py.exn -> option (M A)) : M A :=
  fun E h =>
    match body E h with
    | (Raise e, es) =>
        match handler e with
        | Some k => let (r, es') := k E (h ++ es) in (r, es ++ es')
        | None => (Raise e, es)
        end
    | r => r
    end.

(** [try: body finally: fin].  The [finally] block runs on every way out of
    [body]; an exception of its own replaces the pending one.  A body that is
    still running has not reached it. *)
Definition try_finally {A} (body : M A) (fin : M unit) : M A :=
  fun E h =>
    match body E h with
    | (Running, es) => (Running, es)
    | (r, es) =>
        match fin E (h ++ es) with
        | (Ok _, es') => (r, es ++ es')
        | (Raise e, es') => (Raise e, es ++ es')
        | (Running, es') => (Running, es ++ es')
        end
    end.

(** [time.sleep(secs)]: a negative length is a [ValueError]. *)
Definition time_sleep (secs : Z) : M unit :=
  if secs <? 0
  then raise (Py.mk_exn Py.ValueError "sleep length must be non-negative")
  else call (Sleep secs).

(** ** Configuration

    The process environment, with the integer variables already read by
    [int()]. *)
Record Environ : Type := mk_environ {
  RABBITMQ_HOST : option string;
  RABBITMQ_PORT : option Z;
  RABBITMQ_USER : option string;
  RABBITMQ_PASS : option string;
  RABBITMQ_QUEUE : option string;
  INGESTOR_INTERVAL : option Z
}.

(** [os.getenv(name, default)] *)
Definition getenv {A} (v : option A) (default : A) : A :=
  match v with Some x => x | None => default end.

(** ** The connection manager (the same in both programs) *)

Section Connect.

Variable environ : Environ.

Definition connection_parameters : ConnectionParameters :=
  let host := getenv (RABBITMQ_HOST environ) "localhost" in
  let port := getenv (RABBITMQ_PORT environ) 5672 in
  let user := getenv (RABBITMQ_USER environ) "guest" in
  let password := getenv (RABBITMQ_PASS environ) "guest" in
  mk_params host port (user, password) 600 300.

(** [pika.BlockingConnection(parameters)] *)
Definition BlockingConnection (p : ConnectionParameters) : M Connection :=
  fun E h =>
    match call (Connect p) E h with
    | (Ok _, es) => (Ok (List.length h), es)
    | (Raise e, es) => (Raise e, es)
    | (Running, es) => (Running, es)
    end.

Definition max_delay : Z := 60.

(** One turn of the [while True] loop: [Some c] when the turn returned the
    connection [c], [None] when it fell through the handler. *)
Definition connect_attempt (retry_delay : Z) : M (option Connection) :=
  let p := connection_parameters in
  try_except
    (logger_info ("Attempting to connect to RabbitMQ at " +:+ host p +:+ ":"
                  +:+ Py.str_of_int (port p)) ;;
     connection <- BlockingConnection p ;;
     logger_info "Successfully connected to RabbitMQ" ;;
     ret (Some connection))
    (fun e =>
       if Py.is_Exception e then Some
         (logger_error ("Failed to connect to RabbitMQ: " +:+ Py.str e) ;;
          logger_info ("Retrying in " +:+ Py.str_of_int retry_delay +:+ " seconds...") ;;
          time_sleep retry_delay ;;
          ret None)
       else None).

Fixpoint connect_loop (fuel : nat) (retry_delay : Z) : M Connection :=
  match fuel with
  | O => running
  | S fuel' =>
      r <- connect_attempt retry_delay ;;
      match r with
      | Some connection => ret connection
      | None => connect_loop fuel' (Py.min (retry_delay * 2) max_delay)
      end
  end.

Definition create_rabbitmq_connection (fuel : nat) : M Connection :=
  connect_loop fuel 1.

End Connect.

(** ** Text formatting *)

Definition digit_char (d : N) : ascii := ascii_of_N (48 + d).

(** The [width] low decimal digits of [n], most significant first. *)
Fixpoint digits (width : nat) (n : N) : string :=
  match width with
  | O => ""
  | S w => String (digit_char ((n / 10 ^ N.of_nat w) mod 10)) (digits w n)
  end.

(** [datetime.isoformat()] of a naive instant: the fraction is left out when
    the microseconds are zero. *)
Definition isoformat (t : datetime) : string :=
  digits 4 (year t) +:+ "-" +:+ digits 2 (month t) +:+ "-" +:+ digits 2 (day t)
  +:+ "T" +:+ digits 2 (hour t) +:+ ":" +:+ digits 2 (minute t)
  +:+ ":" +:+ digits 2 (second t)
  +:+ (if (microsecond t =? 0)%N then "" else "." +:+ digits 6 (microsecond t)).

Fixpoint zeros (n : nat) : string :=
  match n with
  | O => ""
  | S n' => String "0" (zeros n')
  end.

(** [f"{n:03d}"]: zero padding up to three characters, sign included. *)
Definition format_03d (n : Z) : string :=
  let ds := Py.str_of_int (Z.abs n) in
  if n <? 0
  then "-" +:+ zeros (2 - String.length ds) +:+ ds
  else zeros (3 - String.length ds) +:+ ds.

(** ** The ingestor *)

Module Ingestor.

(** [publish_message(channel, queue_name, message)] *)
Definition publish_message (channel : Channel) (queue_name : string)
    (message : json) : M unit :=
  try_except
    (call (QueueDeclare queue_name true) ;;
     call (BasicPublish "" queue_name (Json.dumps message) 2) ;;
     logger_info ("Message published to queue '" +:+ queue_name +:+ "': "
                  +:+ Json.dumps message))
    (fun e =>
       if Py.is_Exception e then Some
         (logger_error ("Failed to publish message: " +:+ Py.str e) ;;
          raise e)
       else None).

(** The placeholder message built at the head of each turn of the loop. *)
Definition test_message (message_counter : Z) (now : datetime) : json :=
  JObj [ ("game_id", JStr ("test_" +:+ format_03d message_counter));
         ("timestamp", JStr (isoformat now +:+ "Z"));
         ("home_team", JStr "Test Home Team");
         ("away_team", JStr "Test Away Team");
         ("status", JStr "placeholder_data");
         ("message_number", JInt message_counter) ].

(** The [while True] loop of [main]. *)
Fixpoint publish_loop (fuel : nat) (channel : Channel) (queue_name : string)
    (interval : Z) (message_counter : Z) : M unit :=
  match fuel with
  | O => running
  | S fuel' =>
      now <- datetime_utcnow ;;
      publish_message channel queue_name (test_message message_counter now) ;;
      time_sleep interval ;;
      publish_loop fuel' channel queue_name interval (message_counter + 1)
  end.

(** The [finally] block of [main]. *)
Definition shutdown (connection : Connection) : M unit :=
  try_except
    (call (Close connection) ;;
     logger_info "RabbitMQ connection closed")
    (fun _ => Some (ret tt)) ;;
  logger_info "NFL Ingestor service shutdown complete".

(** The [try] block of [main] with its two [except] clauses. *)
Definition guarded_loop (fuel : nat) (channel : Channel) (queue_name : string)
    (interval : Z) : M unit :=
  try_except
    (logger_info ("Starting message publishing loop (every "
                  +:+ Py.str_of_int interval +:+ " seconds)") ;;
     publish_loop fuel channel queue_name interval 1)
    (fun e =>
       if Py.is_KeyboardInterrupt e then Some
         (logger_info "Received shutdown signal, stopping service")
       else if Py.is_Exception e then Some
         (logger_error ("Unexpected error in main loop: " +:+ Py.str e))
       else None).

Definition main (environ : Environ) (fuel : nat) : M unit :=
  logger_info "NFL Ingestor service starting up" ;;
  let queue_name := getenv (RABBITMQ_QUEUE environ) "game_events" in
  let interval := getenv (INGESTOR_INTERVAL environ) 10 in
  connection <- create_rabbitmq_connection environ fuel ;;
  call (OpenChannel connection) ;;
  let channel : Channel := connection in
  try_finally
    (guarded_loop fuel channel queue_name interval)
    (shutdown connection).

End Ingestor.

(** ** The processor *)

Module Processor.

(** The [method] argument of the consumer callback. *)
Record Deliver : Type := mk_deliver { delivery_tag : N }.

(** [body.decode('utf-8')] *)
Definition decode_utf8 (body : string) : M string :=
  if Json.utf8_valid body then ret body
  else raise (Py.mk_exn Py.UnicodeDecodeError
                "'utf-8' codec can't decode bytes").

(** [json.loads(text)] *)
Definition json_loads (text : string) : M json :=
  match Json.loads text with
  | Some v => ret v
  | None => raise (Py.mk_exn Py.JSONDecodeError "Expecting value")
  end.

(** [type(v).__name__] *)
Definition type_name (v : json) : string :=
  match v with
  | JNull => "NoneType"
  | JBool _ => "bool"
  | JInt _ => "int"
  | JFloat _ => "float"
  | JStr _ => "str"
  | JArr _ => "list"
  | JObj _ => "dict"
  end.

(** [message.get(key)]: only a [dict] has the method. *)
Definition message_get (message : json) (key : string) : M json :=
  match message with
  | JObj fields => ret (dict_get fields key)
  | _ => raise (Py.mk_exn Py.AttributeError
                  ("'" +:+ type_name message +:+ "' object has no attribute 'get'"))
  end.

(** [v == s] for a [str] [s]. *)
Definition eq_str (v : json) (s : string) : bool :=
  match v with
  | JStr t => String.eqb t s
  | _ => false
  end.

(** [process_message(ch, method, properties, body)] *)
Definition process_message (ch : Channel) (method : Deliver)
    (properties : unit) (body : string) : M unit :=
  try_except
    (text <- decode_utf8 body ;;
     message <- json_loads text ;;
     logger_info ("Message received: " +:+ Json.dumps message) ;;
     status <- message_get message "status" ;;
     (if eq_str status "placeholder_data" then
        now <- datetime_utcnow ;;
        game_id <- message_get message "game_id" ;;
        let processed_result :=
          JObj [ ("processed_at", JStr (isoformat now +:+ "Z"));
                 ("original_game_id", game_id);
                 ("processing_status", JStr "success");
                 ("notes", JStr "Placeholder processing completed") ] in
        logger_info ("Processing completed: " +:+ Json.dumps processed_result)
      else ret tt) ;;
     call (BasicAck (delivery_tag method)))
    (fun e =>
       if Py.is_JSONDecodeError e then Some
         (logger_error ("Failed to parse JSON message: " +:+ Py.str e) ;;
          call (BasicNack (delivery_tag method) false))
       else if Py.is_Exception e then Some
         (logger_error ("Error processing message: " +:+ Py.str e) ;;
          call (BasicNack (delivery_tag method) false))
       else None).

(** [channel.start_consuming()]: the client's event loop.  Each turn blocks
    on the socket, then hands the next delivery to the callback given to
    [basic_consume]; the loop ends when the consumer is gone.  An exception
    of the wait or of the callback leaves the loop. *)
Fixpoint start_consuming (fuel : nat) (channel : Channel) : M unit :=
  match fuel with
  | O => running
  | S fuel' =>
      call WaitDelivery ;;
      fun E h =>
        match delivery E h with
        | None => (Ok tt, [])
        | Some (tag, body) =>
            ((fun _ _ => (Ok tt, [Dispatch tag body])) ;;
             process_message channel (mk_deliver tag) tt body ;;
             start_consuming fuel' channel) E h
        end
  end.

(** The [finally] block of [main]. *)
Definition shutdown (connection : Connection) : M unit :=
  try_except
    (call (Close connection) ;;
     logger_info "RabbitMQ connection closed")
    (fun _ => Some (ret tt)) ;;
  logger_info "NFL Processor service shutdown complete".

(** The [try] block of [main] with its two [except] clauses. *)
Definition guarded_consume (fuel : nat) (channel : Channel)
    (queue_name : string) : M unit :=
  try_except
    (call (QueueDeclare queue_name true) ;;
     call (BasicConsume queue_name) ;;
     call (BasicQos 1) ;;
     logger_info ("Waiting for messages from queue '" +:+ queue_name
                  +:+ "'. To exit press CTRL+C") ;;
     start_consuming fuel channel)
    (fun e =>
       if Py.is_KeyboardInterrupt e then Some
         (logger_info "Received shutdown signal, stopping service" ;;
          call StopConsuming)
       else if Py.is_Exception e then Some
         (logger_error ("Unexpected error in main loop: " +:+ Py.str e))
       else None).

Definition main (environ : Environ) (fuel : nat) : M unit :=
  logger_info "NFL Processor service starting up" ;;
  let queue_name := getenv (RABBITMQ_QUEUE environ) "game_events" in
  connection <- create_rabbitmq_connection environ fuel ;;
  call (OpenChannel connection) ;;
  let channel : Channel := connection in
  try_finally
    (guarded_consume fuel channel queue_name)
    (shutdown connection).

End Processor.

(** ** The broker

    Modelled from the spec: the message broker, which the repository only
    talks to.  A queue is declared if absent and a repeated declaration with
    the same properties is accepted (§3); the prefetch count is the largest
    number of unacknowledged deliveries the broker lets a consumer hold, and
    none is in force until the client sets one (§4.3, glossary); a delivery
    tag is settled once.  One channel, as in both programs. *)

Module Broker.

Record queue : Type := mk_queue {
  q_durable : bool;
  q_ready : list string          (* messages waiting, oldest first *)
}.

Record state : Type := mk_state {
  queues : list (string * queue);
  consumer : option string;      (* the queue this channel consumes from *)
  prefetch : Z;                  (* 0: no limit *)
  unacked : list (N * string);   (* deliveries pushed and not settled *)
  next_tag : N
}.

Definition empty : state := mk_state [] None 0 [] 1.

Fixpoint lookup (qs : list (string * queue)) (name : string) : option queue :=
  match qs with
  | [] => None
  | (n, q) :: qs' => if String.eqb n name then Some q else lookup qs' name
  end.

Fixpoint update (qs : list (string * queue)) (name : string) (q : queue)
  : list (string * queue) :=
  match qs with
  | [] => [(name, q)]
  | (n, q') :: qs' =>
      if String.eqb n name then (n, q) :: qs' else (n, q') :: update qs' name q
  end.

Definition with_queues (st : state) (qs : list (string * queue)) : state :=
  mk_state qs (consumer st) (prefetch st) (unacked st) (next_tag st).

Definition with_unacked (st : state) (u : list (N * string)) : state :=
  mk_state (queues st) (consumer st) (prefetch st) u (next_tag st).

Fixpoint remove_tag (tag : N) (u : list (N * string))
  : option (string * list (N * string)) :=
  match u with
  | [] => None
  | (t, m) :: u' =>
      if (t =? tag)%N then Some (m, u')
      else match remove_tag tag u' with
           | Some (m', u'') => Some (m', (t, m) :: u'')
           | None => None
           end
  end.

(** What the channel does with a request of the client; [None]: the broker
    refuses it with a channel error. *)
Definition request (st : state) (ev : event) : option state :=
  match ev with
  | QueueDeclare name durable =>
      match lookup (queues st) name with
      | None => Some (with_queues st (update (queues st) name (mk_queue durable [])))
      | Some q => if Bool.eqb (q_durable q) durable then Some st else None
      end
  | BasicPublish _ routing_key body _ =>
      match lookup (queues st) routing_key with
      | Some q =>
          Some (with_queues st
                  (update (queues st) routing_key
                     (mk_queue (q_durable q) (q_ready q ++ [body]))))
      | None => Some st
      end
  | BasicConsume name =>
      match lookup (queues st) name with
      | Some _ => Some (mk_state (queues st) (Some name) (prefetch st)
                          (unacked st) (next_tag st))
      | None => None
      end
  | BasicQos n =>
      Some (mk_state (queues st) (consumer st) n (unacked st) (next_tag st))
  | BasicAck tag =>
      match remove_tag tag (unacked st) with
      | Some (_, u) => Some (with_unacked st u)
      | None => None
      end
  | BasicNack tag requeue =>
      match remove_tag tag (unacked st) with
      | Some (m, u) =>
          if requeue then
            match consumer st with
            | Some name =>
                match lookup (queues st) name with
                | Some q =>
                    Some (with_unacked
                            (with_queues st
                               (update (queues st) name
                                  (mk_queue (q_durable q) (m :: q_ready q)))) u)
                | None => Some (with_unacked st u)
                end
            | None => Some (with_unacked st u)
            end
          else Some (with_unacked st u)
      | None => None
      end
  | _ => Some st
  end.

(** The broker may push the oldest waiting message to the consumer while
    the prefetch count in force allows one more unacknowledged delivery. *)
Definition may_push (st : state) : bool :=
  (prefetch st =? 0) || (Z.of_nat (List.length (unacked st)) <? prefetch st).

Definition push (st : state) : option state :=
  match consumer st with
  | None => None
  | Some name =>
      match lookup (queues st) name with
      | Some (mk_queue d (m :: ready)) =>
          if may_push st then
            Some (mk_state (update (queues st) name (mk_queue d ready))
                    (consumer st) (prefetch st)
                    (unacked st ++ [(next_tag st, m)]) (N.succ (next_tag st)))
          else None
      | _ => None
      end
  end.

(** A step of the channel: a request of the client, or a push of the
    broker. *)
Inductive action : Type :=
| Client (ev : event)
| Push.

Definition step (st : state) (a : action) : option state :=
  match a with
  | Client ev => request st ev
  | Push => push st
  end.

Fixpoint run (st : state) (acts : list action) : option state :=
  match acts with
  | [] => Some st
  | a :: acts' =>
      match step st a with
      | Some st' => run st' acts'
      | None => None
      end
  end.

(** The requests of the client among the steps. *)
Fixpoint client_calls (acts : list action) : list event :=
  match acts with
  | [] => []
  | Client ev :: acts' => ev :: client_calls acts'
  | Push :: acts' => client_calls acts'
  end.

End Broker.

(** ** The wire format *)

(** The invariants of a [datetime] object. *)
Definition datetime_ok (t : datetime) : bool :=
  ((1 <=? year t) && (year t <=? 9999) && (1 <=? month t) && (month t <=? 12)
   && (1 <=? day t) && (day t <=? 31) && (hour t <=? 23) && (minute t <=? 59)
   && (second t <=? 59) && (microsecond t <=? 999999))%N.

(** The number that two decimal digits spell. *)
Definition two_digits (a b : ascii) : option N :=
  if Json.is_digit a && Json.is_digit b
  then Some (10 * (Json.code a - 48) + (Json.code b - 48))%N
  else None.

Definition in_range (v : option N) (lo hi : N) : bool :=
  match v with
  | Some n => ((lo <=? n) && (n <=? hi))%N
  | None => false
  end.

(** An optional fraction of a second, then the zone designator [Z]. *)
Definition fraction_and_zone (s : string) : bool :=
  match s with
  | String c r =>
      if (Json.code c =? 90)%N then match r with EmptyString => true | _ => false end
      else if (Json.code c =? 46)%N then
        match Json.take_digits r with
        | (EmptyString, _) => false
        | (_, String z EmptyString) => (Json.code z =? 90)%N
        | _ => false
        end
      else false
  | EmptyString => false
  end.

(** An ISO-8601 instant in the extended format, in UTC:
    [YYYY-MM-DDThh:mm:ss], an optional fraction, [Z]. *)
Definition iso8601_utc (s : string) : bool :=
  match s with
  | String y1 (String y2 (String y3 (String y4 (String d1
      (String m1 (String m2 (String d2 (String a1 (String a2 (String t
        (String h1 (String h2 (String c1 (String n1 (String n2 (String c2
          (String s1 (String s2 rest)))))))))))))))))) =>
      Json.is_digit y1 && Json.is_digit y2 && Json.is_digit y3 && Json.is_digit y4
      && (Json.code d1 =? 45)%N && in_range (two_digits m1 m2) 1 12
      && (Json.code d2 =? 45)%N && in_range (two_digits a1 a2) 1 31
      && (Json.code t =? 84)%N && in_range (two_digits h1 h2) 0 23
      && (Json.code c1 =? 58)%N && in_range (two_digits n1 n2) 0 59
      && (Json.code c2 =? 58)%N && in_range (two_digits s1 s2) 0 59
      && fraction_and_zone rest
  | _ => false
  end.

(** A value without nesting and without escapes: a plain string or an
    integer; and an object of such values under plain keys. *)
Definition flat_value (v : json) : Prop :=
  match v with
  | JStr s => Json.all_plain s = true
  | JInt _ => True
  | _ => False
  end.

Definition flat_fields (fields : list (string * json)) : Prop :=
  Forall (fun kv => Json.all_plain (fst kv) = true /\ flat_value (snd kv)) fields.

(** [dict(pairs)] *)
Definition dict_of (acc pairs : list (string * json)) : list (string * json) :=
  fold_left (fun d kv => dict_set d (fst kv) (snd kv)) pairs acc.

(** What follows a value inside an object: a comma or the closing brace. *)
Definition closes_value (s : string) : Prop :=
  (exists r, s = String "," r) \/ (exists r, s = String "}" r).

(** The envelope of §6: a UTF-8 JSON object with exactly these six fields,
    five strings, the second an ISO-8601 instant, and an integer. *)
Definition wire_format (body : string) : Prop :=
  Json.utf8_valid body = true /\
  exists game_id timestamp home_team away_team status message_number,
    Json.loads body =
      Some (JObj [ ("game_id", JStr game_id);
                   ("timestamp", JStr timestamp);
                   ("home_team", JStr home_team);
                   ("away_team", JStr away_team);
                   ("status", JStr status);
                   ("message_number", JInt message_number) ]) /\
    iso8601_utc timestamp = true.

(** ** Observations on traces *)

(** The lengths of the sleeps, in order. *)
Fixpoint sleep_delays (es : list event) : list Z :=
  match es with
  | [] => []
  | Sleep d :: es' => d :: sleep_delays es'
  | _ :: es' => sleep_delays es'
  end.



Definition is_connect (ev : event) : bool :=
  match ev with Connect _ => true | _ => false end.

Definition is_log_info (ev : event) : bool :=
  match ev with LogInfo _ => true | _ => false end.

Definition is_log_error (ev : event) : bool :=
  match ev with LogError _ => true | _ => false end.

Definition is_publish (ev : event) : bool :=
  match ev with BasicPublish _ _ _ _ => true | _ => false end.

Definition is_qos (ev : event) : bool :=
  match ev with BasicQos _ => true | _ => false end.

Definition is_close (ev : event) : bool :=
  match ev with Close _ => true | _ => false end.

(** The calls that settle delivery [tag]. *)
Definition settles (tag : N) (ev : event) : bool :=
  match ev with
  | BasicAck t => (t =? tag)%N
  | BasicNack t _ => (t =? tag)%N
  | _ => false
  end.


(** The calls on the channel, without the log lines and the sleeps. *)
Definition is_channel_call (ev : event) : bool :=
  match ev with
  | QueueDeclare _ _ | BasicPublish _ _ _ _ | BasicConsume _ | BasicQos _
  | BasicAck _ | BasicNack _ _ => true
  | _ => false
  end.


(** Every event that [m] emits under [E], from whatever history, satisfies
    [P]. *)
Definition emits {A} (E : Env) (P : event -> Prop) (m : M A) : Prop :=
  forall h, Forall P (snd (m E h)).

(** Log lines, connection attempts and sleeps. *)
Definition is_housekeeping (ev : event) : bool :=
  match ev with
  | LogInfo _ | LogError _ | Connect _ | Sleep _ => true
  | _ => false
  end.

(** Opening and closing the connection. *)
Definition is_lifecycle (ev : event) : bool :=
  match ev with
  | Connect _ | OpenChannel _ | Close _ => true
  | _ => false
  end.

(** The events of the ingestor's publishing loop on [queue_name]. *)
Definition ingestor_event (E : Env) (queue_name : string) (ev : event) : Prop :=
  match ev with
  | LogInfo _ | LogError _ | Sleep _ => True
  | QueueDeclare queue durable => queue = queue_name /\ durable = true
  | BasicPublish exchange routing_key body delivery_mode =>
      exchange = "" /\ routing_key = queue_name /\ delivery_mode = 2 /\
      exists message_counter h,
        1 <= message_counter /\
        body = Json.dumps (Ingestor.test_message message_counter (utcnow E h))
  | _ => False
  end.

(** The events of the processor's consuming loop on [queue_name]. *)
Definition processor_event (queue_name : string) (ev : event) : Prop :=
  match ev with
  | LogInfo _ | LogError _ | Sleep _
  | WaitDelivery | Dispatch _ _ | StopConsuming | BasicAck _ => True
  | QueueDeclare queue durable => queue = queue_name /\ durable = true
  | BasicConsume queue => queue = queue_name
  | BasicQos prefetch_count => prefetch_count = 1
  | BasicNack _ requeue => requeue = false
  | _ => False
  end.

(** The number of events of a kind. *)
Definition count (f : event -> bool) (es : list event) : nat :=
  List.length (filter f es).

(** ** Scenarios *)

Definition noon : datetime := mk_datetime 2024 1 15 12 30 45 123456.

(** Every call returns and nothing is delivered. *)
Definition quiet : Env :=
  mk_env (fun _ _ => None) (fun _ => noon) (fun _ => None).

Definition refused : Py.exn :=
  Py.mk_exn Py.AMQPConnectionError "Connection refused".

(** The broker is unreachable for the first [n] connection attempts. *)
Definition unreachable (n : nat) : Env :=
  mk_env
    (fun h ev =>
       match ev with
       | Connect _ => if (count is_connect h <? n)%nat then Some refused else None
       | _ => None
       end)
    (fun _ => noon) (fun _ => None).

Definition default_environ : Environ := mk_environ None None None None None None.

Definition channel_closed : Py.exn :=
  Py.mk_exn Py.AMQPChannelError "Channel is closed".


(** The connection is accepted and lost before a channel is opened on it. *)
Definition channel_refused : Env :=
  mk_env
    (fun _ ev => match ev with OpenChannel _ => Some channel_closed | _ => None end)
    (fun _ => noon) (fun _ => None).

(** The placeholder message as the ingestor sends it. *)
Definition sample_body : string := Json.dumps (Ingestor.test_message 1 noon).

(** The broker rejects what is published. *)
Definition publish_fails : Env :=
  mk_env
    (fun _ ev =>
       match ev with BasicPublish _ _ _ _ => Some channel_closed | _ => None end)
    (fun _ => noon) (fun _ => None).

(** A broker on which the queue exists and holds two messages. *)
Definition backlog : Broker.state :=
  Broker.mk_state
    [("game_events", Broker.mk_queue true [sample_body; sample_body])]
    None 0 [] 1.

Definition interrupt : Py.exn := Py.mk_exn Py.KeyboardInterrupt "".

(** CTRL+C arrives during the wait (a sleep or a turn of the event loop)
    that follows [n] earlier ones; [bodies] are the deliveries at hand. *)
Definition interrupted_after (n : nat) (bodies : list string) : Env :=
  let waits h :=
    count (fun ev => match ev with Sleep _ | WaitDelivery => true | _ => false end) h in
  mk_env
    (fun h ev =>
       match ev with
       | Sleep _ | WaitDelivery => if (waits h =? n)%nat then Some interrupt else None
       | _ => None
       end)
    (fun _ => noon)
    (fun h =>
       match nth_error bodies (Nat.pred (waits h)) with
       | Some b => Some (N.of_nat (waits h), b)
       | None => None
       end).

(** ** Observations on the messages of a run *)

(** The bodies handed to [basic_publish], in order. *)
Fixpoint publish_calls (es : list event) : list string :=
  match es with
  | [] => []
  | BasicPublish _ _ body _ :: es' => body :: publish_calls es'
  | _ :: es' => publish_calls es'
  end.

(** The placeholder messages numbered from [message_counter] on, one per
    instant, serialised. *)
Fixpoint messages_from (message_counter : Z) (nows : list datetime) : list string :=
  match nows with
  | [] => []
  | now :: nows' =>
      Json.dumps (Ingestor.test_message message_counter now)
      :: messages_from (message_counter + 1) nows'
  end.

(** What a consumer reads in the field [message_number] of a body. *)
Definition message_number_of (body : string) : option Z :=
  match Json.loads body with
  | Some (JObj fields) =>
      match dict_get fields "message_number" with
      | JInt n => Some n
      | _ => None
      end
  | _ => None
  end.

(** The integers [first], [first + 1], ... ([n] of them). *)
Fixpoint count_from (first : Z) (n : nat) : list Z :=
  match n with
  | O => []
  | S n' => first :: count_from (first + 1) n'
  end.


(** ** Observations on the deliveries of a run *)

(** The bodies the callback handles to the end: UTF-8 text that is a JSON
    object. *)
Definition handled (body : string) : bool :=
  Json.utf8_valid body &&
  match Json.loads body with
  | Some (JObj _) => true
  | _ => false
  end.

(** The settlement of a delivery by a channel on which settling succeeds. *)
Definition verdict (tag : N) (body : string) : event :=
  if handled body then BasicAck tag else BasicNack tag false.

(** The deliveries handed to the callback and their settlements, in order. *)
Fixpoint delivery_events (es : list event) : list event :=
  match es with
  | [] => []
  | Dispatch tag body :: es' => Dispatch tag body :: delivery_events es'
  | BasicAck tag :: es' => BasicAck tag :: delivery_events es'
  | BasicNack tag requeue :: es' => BasicNack tag requeue :: delivery_events es'
  | _ :: es' => delivery_events es'
  end.

(** ** Structured logging

    [JSONFormatter] and [setup_logging] are the same in both programs, but
    for the name of the service. *)

(** What [format] reads of a [logging.LogRecord]: the name of the level, the
    text that [getMessage()] returns, and the text that [formatException]
    makes of [exc_info] when the record carries one. *)
Record LogRecord : Type := mk_record {
  levelname : string;
  getMessage : string;
  exc_info : option string
}.

Module JSONFormatter.

(** The [dict] that [format] fills in. *)
Definition log_entry (service_name : string) (now : datetime)
    (record : LogRecord) : list (string * json) :=
  let log_entry :=
    [ ("timestamp", JStr (isoformat now +:+ "Z"));
      ("level", JStr (levelname record));
      ("service_name", JStr service_name);
      ("message", JStr (getMessage record)) ] in
  match exc_info record with
  | Some text => dict_set log_entry "exception" (JStr text)
  | None => log_entry
  end.

(** [JSONFormatter.format(record)] *)
Definition format (service_name : string) (record : LogRecord) : M string :=
  now <- datetime_utcnow ;;
  ret (Json.dumps (JObj (log_entry service_name now record))).

End JSONFormatter.

(** Printable ASCII: no control character, no line break, nothing outside
    the ASCII range. *)
Fixpoint printable (s : string) : bool :=
  match s with
  | String c s' => Json.between 32 (Json.code c) 126 && printable s'
  | EmptyString => true
  end.

(** A value without nesting: a string (any UTF-8 text) or an integer; and an
    object of such values under plain keys. *)
Definition text_value (v : json) : Prop :=
  match v with
  | JStr s => Json.utf8_valid s = true
  | JInt _ => True
  | _ => False
  end.

Definition text_fields (fields : list (string * json)) : Prop :=
  Forall (fun kv => Json.all_plain (fst kv) = true /\ text_value (snd kv)) fields.

(** ** The root logger

    Modelled from the [logging] module of the Python standard library, which
    the repository only calls: a logger holds a level and a list of handlers,
    compared by identity; [removeHandler] removes a handler that is in the
    list, [addHandler] appends one that is not, and [setLevel] accepts an
    integer or the name of a level. *)

Module Logging.

(** A handler object; [formatter] is the service name of its
    [JSONFormatter], when it has one. *)
Record Handler : Type := mk_handler {
  handler_id : nat;
  formatter : option string
}.

Record Logger : Type := mk_logger {
  level : Z;
  handlers : list Handler
}.

(** The root logger, and the number of handler objects made so far. *)
Record State : Type := mk_state {
  root : Logger;
  made : nat
}.

(** An attribute of the module, as [setLevel] tells them apart. *)
Inductive value : Type :=
| VInt (n : Z)
| VStr (s : string)
| VOther.

(** [a is b] *)
Definition same (a b : Handler) : bool := Nat.eqb (handler_id a) (handler_id b).

(** [l.remove(x)] for an [x] that is in [l]: the first occurrence goes. *)
Fixpoint list_remove (x : Handler) (l : list Handler) : list Handler :=
  match l with
  | [] => []
  | y :: l' => if same y x then l' else y :: list_remove x l'
  end.

(** [logger.removeHandler(hdlr)] *)
Definition removeHandler (logger : Logger) (hdlr : Handler) : Logger :=
  if existsb (same hdlr) (handlers logger)
  then mk_logger (level logger) (list_remove hdlr (handlers logger))
  else logger.

(** [logger.addHandler(hdlr)] *)
Definition addHandler (logger : Logger) (hdlr : Handler) : Logger :=
  if existsb (same hdlr) (handlers logger)
  then logger
  else mk_logger (level logger) (handlers logger ++ [hdlr]).

Section Namespace.

(** [getattr(logging, name)], and the table of the level names. *)
Variable getattr_logging : string -> option value.
Variable nameToLevel : string -> option Z.

(** What [setLevel] makes of its argument. *)
Definition checkLevel (v : value) : Z + Py.exn :=
  match v with
  | VInt n => inl n
  | VStr s =>
      match nameToLevel s with
      | Some n => inl n
      | None => inr (Py.mk_exn Py.ValueError ("Unknown level: '" +:+ s +:+ "'"))
      end
  | VOther =>
      inr (Py.mk_exn Py.TypeError "Level not an integer or a valid string")
  end.

(** [setup_logging()] of the service [service_name], with the value of
    [LOG_LEVEL] in the environment. *)
Definition setup_logging (service_name : string) (LOG_LEVEL : option string)
    (st : State) : res unit * State :=
  let name := getenv LOG_LEVEL "INFO" in
  match getattr_logging name with
  | None =>
      (Raise (Py.mk_exn Py.AttributeError
                ("module 'logging' has no attribute '" +:+ name +:+ "'")), st)
  | Some v =>
      match checkLevel v with
      | inr e => (Raise e, st)
      | inl n =>
          let logger := mk_logger n (handlers (root st)) in
          let logger := fold_left removeHandler (handlers logger) logger in
          let console_handler := mk_handler (made st) (Some service_name) in
          (Ok tt, mk_state (addHandler logger console_handler) (S (made st)))
      end
  end.

End Namespace.

(** The level constants of the module and its logging functions; its other
    attributes are left out. *)
Definition level_names (name : string) : option value :=
  if String.eqb name "CRITICAL" then Some (VInt 50)
  else if String.eqb name "ERROR" then Some (VInt 40)
  else if String.eqb name "WARNING" then Some (VInt 30)
  else if String.eqb name "INFO" then Some (VInt 20)
  else if String.eqb name "DEBUG" then Some (VInt 10)
  else if String.eqb name "NOTSET" then Some (VInt 0)
  else if String.eqb name "critical" || String.eqb name "error"
          || String.eqb name "warning" || String.eqb name "info"
          || String.eqb name "debug"
  then Some VOther
  else None.

End Logging.

(** The calls of the ingestor on its queue. *)
Definition is_queue_call (ev : event) : bool :=
  match ev with
  | QueueDeclare _ _ | BasicPublish _ _ _ _ => true
  | _ => false
  end.


(** * Properties *)

(** Messages and class tests stay folded while a computation is unfolded. *)
#[local] Arguments String.append : simpl never.
#[local] Arguments Py.is_Exception : simpl never.
#[local] Arguments Py.is_JSONDecodeError : simpl never.
#[local] Arguments Py.is_KeyboardInterrupt : simpl never.
#[local] Arguments Py.str_of_int : simpl never.
#[local] Arguments host : simpl never.
#[local] Arguments port : simpl never.
#[local] Arguments Json.dumps : simpl never.
#[local] Arguments Json.loads : simpl never.
#[local] Arguments Json.utf8_valid : simpl never.

(** ** The connection manager *)


Lemma sleep_delays_app es es' :
  sleep_delays (es ++ es') = sleep_delays es ++ sleep_delays es'.
Proof.
  induction es as [|ev es IH]; [reflexivity|].
  destruct ev; cbn; rewrite ?IH; reflexivity.
Qed.


Lemma py_min_spec a b : Py.min a b = Z.min a b.
Proof. unfold Py.min. destruct (Z.ltb_spec b a); lia. Qed.





Example backoff_after_eight_failures :
  sleep_delays (snd (create_rabbitmq_connection default_environ 20 (unreachable 8) []))
  = [1; 2; 4; 8; 16; 32; 60; 60].
Proof. vm_compute. reflexivity. Qed.

Lemma count_app f es es' : count f (es ++ es') = (count f es + count f es')%nat.
Proof. unfold count. rewrite filter_app, length_app. reflexivity. Qed.

Section Retry.

Variable environ : Environ.
Variable E : Env.

(** Waiting is not interrupted, and a connection attempt fails with an
    ordinary exception. *)
Hypothesis sleep_returns : forall h d, raises E h (Sleep d) = None.
Hypothesis connect_fails_with_Exception :
  forall h p e, raises E h (Connect p) = Some e -> Py.is_Exception e = true.

Local Abbreviation p := (connection_parameters environ).
Local Abbreviation attempting :=
  (LogInfo ("Attempting to connect to RabbitMQ at " +:+ host p +:+ ":"
            +:+ Py.str_of_int (port p))).
Local Abbreviation connected := (LogInfo "Successfully connected to RabbitMQ").

Lemma connect_attempt_cases d h :
  0 <= d ->
  (raises E (h ++ [attempting]) (Connect p) = None /\
   connect_attempt environ d E h =
     (Ok (Some (List.length (h ++ [attempting]))), [attempting; Connect p; connected]))
  \/
  (exists e, raises E (h ++ [attempting]) (Connect p) = Some e /\
   connect_attempt environ d E h =
     (Ok None,
      [attempting; Connect p;
       LogError ("Failed to connect to RabbitMQ: " +:+ Py.str e);
       LogInfo ("Retrying in " +:+ Py.str_of_int d +:+ " seconds...");
       Sleep d])).
Proof.
  intros Hd.
  unfold connect_attempt, try_except, bind, BlockingConnection, call,
    logger_info, logger_error, time_sleep, raise, ret.
  cbn.
  destruct (raises E (h ++ [attempting]) (Connect p)) as [e|] eqn:Hc; cbn.
  - right. exists e. split; [reflexivity|].
    rewrite (connect_fails_with_Exception _ _ _ Hc). cbn.
    destruct (Z.ltb_spec d 0); [lia|]. cbn.
    rewrite sleep_returns. reflexivity.
  - left. split; reflexivity.
Qed.

Lemma connect_loop_outcome fuel :
  forall d h, 1 <= d ->
  match connect_loop environ fuel d E h with
  | (Ok c, es) =>
      exists es1,
        es = es1 ++ [Connect p; connected] /\
        c = List.length (h ++ es1) /\
        raises E (h ++ es1) (Connect p) = None /\
        (count is_log_error es + 1 = count is_connect es)%nat
  | (Raise _, _) => False
  | (Running, es) =>
      count is_connect es = fuel /\ count is_log_error es = fuel
  end.
Proof.
  induction fuel as [|fuel IH]; intros d h Hd.
  - cbn. split; reflexivity.
  - cbn [connect_loop]. unfold bind.
    destruct (connect_attempt_cases d h) as [[Hc ->]|[e [Hc ->]]]; [lia| |].
    + cbn [ret]. exists [attempting]. repeat split; assumption || reflexivity.
    + specialize (IH (Py.min (d * 2) max_delay)
                    (h ++ [attempting; Connect p;
                           LogError ("Failed to connect to RabbitMQ: " +:+ Py.str e);
                           LogInfo ("Retrying in " +:+ Py.str_of_int d +:+ " seconds...");
                           Sleep d])).
      destruct (connect_loop environ fuel _ E _) as [[c| |] es].
      * destruct IH as [es1 (-> & -> & Hr & Hn)];
          [rewrite py_min_spec; unfold max_delay; lia|].
        rewrite <- app_assoc in Hr.
        eexists (_ ++ es1). split; [apply app_assoc|].
        split; [rewrite <- app_assoc; reflexivity|].
        split; [exact Hr|].
        rewrite !count_app in *. cbn in *. lia.
      * apply IH. rewrite py_min_spec; unfold max_delay; lia.
      * destruct IH as [H1 H2];
          [rewrite py_min_spec; unfold max_delay; lia|].
        rewrite !count_app. cbn. split; lia.
Qed.

(** Enough fuel gives the connection: when the attempt after [n] earlier
    ones is accepted, the loop returns within [n + 1] attempts. *)
Lemma connect_loop_returns fuel :
  forall n d h, 1 <= d -> (n < fuel)%nat ->
  (forall h' q, count is_connect h' = (count is_connect h + n)%nat ->
                raises E h' (Connect q) = None) ->
  exists c es, connect_loop environ fuel d E h = (Ok c, es)
               /\ (count is_connect es <= n + 1)%nat.
Proof.
  induction fuel as [|fuel IH]; intros n d h Hd Hn Hacc; [lia|].
  cbn [connect_loop]. unfold bind.
  destruct (connect_attempt_cases d h) as [[Hc ->]|[e [Hc ->]]]; [lia| |].
  - cbn [ret]. eexists _, _. split; [reflexivity|]. cbn. lia.
  - destruct n as [|n].
    + rewrite Hacc in Hc; [discriminate|].
      rewrite count_app. cbn. lia.
    + destruct (IH n (Py.min (d * 2) max_delay)
                  (h ++ [attempting; Connect p;
                         LogError ("Failed to connect to RabbitMQ: " +:+ Py.str e);
                         LogInfo ("Retrying in " +:+ Py.str_of_int d +:+ " seconds...");
                         Sleep d])) as (c & es & -> & Hle).
      * rewrite py_min_spec; unfold max_delay; lia.
      * lia.
      * intros h' q Hh'. apply Hacc. rewrite Hh', count_app. cbn. lia.
      * eexists _, _. split; [reflexivity|].
        rewrite count_app. cbn. lia.
Qed.

End Retry.

(** C2.  In an environment where waiting is not interrupted and a failed
    connection attempt raises an ordinary exception,
    [create_rabbitmq_connection] never raises: it returns the connection
    opened by an attempt that succeeded, every attempt before it having been
    logged as an error and followed by another; as long as it has not
    returned, every attempt so far failed and was logged, however many they
    are; and it does return as soon as an attempt is accepted. *)
Theorem connection_retried_until_success
    (environ : Environ) (E : Env)
    (sleep_returns : forall h d, raises E h (Sleep d) = None)
    (connect_fails_with_Exception :
       forall h p e, raises E h (Connect p) = Some e -> Py.is_Exception e = true)
    (fuel : nat) (h : list event) :
  let p := connection_parameters environ in
  match create_rabbitmq_connection environ fuel E h with
  | (Ok c, es) =>
      exists es1,
        es = es1 ++ [Connect p; LogInfo "Successfully connected to RabbitMQ"] /\
        c = List.length (h ++ es1) /\
        raises E (h ++ es1) (Connect p) = None /\
        (count is_log_error es + 1 = count is_connect es)%nat
  | (Raise _, _) => False
  | (Running, es) =>
      count is_connect es = fuel /\ count is_log_error es = fuel
  end
  /\
  (forall n, (n < fuel)%nat ->
     (forall h' q, count is_connect h' = (count is_connect h + n)%nat ->
                   raises E h' (Connect q) = None) ->
     exists c es, create_rabbitmq_connection environ fuel E h = (Ok c, es)
                  /\ (count is_connect es <= n + 1)%nat).
Proof.
  cbv zeta. unfold create_rabbitmq_connection. split.
  - apply connect_loop_outcome; [assumption | assumption | lia].
  - intros n Hn Hacc.
    apply connect_loop_returns; [assumption | assumption | lia | exact Hn | exact Hacc].
Qed.

Lemma unreachable_sleep_returns n h d : raises (unreachable n) h (Sleep d) = None.
Proof. reflexivity. Qed.

Lemma unreachable_fails_with_Exception n h p e :
  raises (unreachable n) h (Connect p) = Some e -> Py.is_Exception e = true.
Proof.
  unfold unreachable. cbn [raises].
  destruct (count is_connect h <? n)%nat; [|discriminate].
  intros [= <-]. reflexivity.
Qed.

Lemma connection_retried_until_success_witness :
  exists c es,
    create_rabbitmq_connection default_environ 10 (unreachable 3) [] = (Ok c, es)
    /\ (count is_connect es <= 3 + 1)%nat.
Proof.
  apply (proj2 (connection_retried_until_success default_environ (unreachable 3)
                  (unreachable_sleep_returns 3)
                  (unreachable_fails_with_Exception 3) 10 []) 3%nat).
  - lia.
  - intros h' q Hh'. unfold unreachable. cbn [raises]. rewrite Hh'. reflexivity.
Defined.

Example three_refusals_then_connected :
  create_rabbitmq_connection default_environ 10 (unreachable 3) [] =
  (Ok 16%nat,
   [ LogInfo "Attempting to connect to RabbitMQ at localhost:5672";
     Connect (connection_parameters default_environ);
     LogError "Failed to connect to RabbitMQ: Connection refused";
     LogInfo "Retrying in 1 seconds..."; Sleep 1;
     LogInfo "Attempting to connect to RabbitMQ at localhost:5672";
     Connect (connection_parameters default_environ);
     LogError "Failed to connect to RabbitMQ: Connection refused";
     LogInfo "Retrying in 2 seconds..."; Sleep 2;
     LogInfo "Attempting to connect to RabbitMQ at localhost:5672";
     Connect (connection_parameters default_environ);
     LogError "Failed to connect to RabbitMQ: Connection refused";
     LogInfo "Retrying in 4 seconds..."; Sleep 4;
     LogInfo "Attempting to connect to RabbitMQ at localhost:5672";
     Connect (connection_parameters default_environ);
     LogInfo "Successfully connected to RabbitMQ" ]).
Proof. vm_compute. reflexivity. Qed.

(** With a broker that never answers, the loop is still trying after any
    number of attempts. *)
Example never_gives_up :
  fst (create_rabbitmq_connection default_environ 500 (unreachable 1000) []) = Running.
Proof. vm_compute. reflexivity. Qed.

(** ** The consumer callback *)

Section Callback.

Variables (ch : Channel) (tag : N) (body : string) (E : Env) (h : list event).

Local Abbreviation run :=
  (Processor.process_message ch (Processor.mk_deliver tag) tt body E h).





End Callback.


Lemma in_logs ev logs :
  Forall (fun ev => is_log_info ev = true) logs -> In ev logs -> is_log_info ev = true.
Proof. intros Hl Hin. rewrite Forall_forall in Hl. auto. Qed.



Example sample_body_text :
  sample_body =
  Json.dumps
    (JObj [ ("game_id", JStr "test_001");
            ("timestamp", JStr "2024-01-15T12:30:45.123456Z");
            ("home_team", JStr "Test Home Team");
            ("away_team", JStr "Test Away Team");
            ("status", JStr "placeholder_data");
            ("message_number", JInt 1) ])
  /\ Json.loads sample_body = Some (Ingestor.test_message 1 noon).
Proof. split; vm_compute; reflexivity. Qed.







Example object_without_status_is_acknowledged :
  Processor.process_message 0%nat (Processor.mk_deliver 7) tt "{}" quiet []
  = (Ok tt, [LogInfo "Message received: {}"; BasicAck 7]).
Proof. vm_compute. reflexivity. Qed.

Example placeholder_message_is_processed :
  filter (fun ev => negb (is_log_info ev))
    (snd (Processor.process_message 0%nat (Processor.mk_deliver 7) tt sample_body quiet []))
  = [BasicAck 7] /\
  count is_log_info
    (snd (Processor.process_message 0%nat (Processor.mk_deliver 7) tt sample_body quiet []))
  = 2%nat.
Proof. split; vm_compute; reflexivity. Qed.

(** ** The publisher *)

Lemma publish_message_eq channel queue_name message E h :
  let declare := QueueDeclare queue_name true in
  let publish := BasicPublish "" queue_name (Json.dumps message) 2 in
  let logged (e : Py.exn) :=
    if Py.is_Exception e
    then [LogError ("Failed to publish message: " +:+ Py.str e)] else [] in
  Ingestor.publish_message channel queue_name message E h =
  match raises E h declare with
  | Some e => (Raise e, [declare] ++ logged e)
  | None =>
      match raises E (h ++ [declare]) publish with
      | Some e => (Raise e, [declare; publish] ++ logged e)
      | None =>
          (Ok tt,
           [declare; publish;
            LogInfo ("Message published to queue '" +:+ queue_name +:+ "': "
                     +:+ Json.dumps message)])
      end
  end.
Proof.
  cbv zeta.
  unfold Ingestor.publish_message, try_except, bind, call, logger_info,
    logger_error, raise.
  destruct (raises E h (QueueDeclare queue_name true)) as [e|]; cbn.
  - destruct (Py.is_Exception e); reflexivity.
  - destruct (raises E (h ++ [QueueDeclare queue_name true]) _) as [e|]; cbn;
      [destruct (Py.is_Exception e)|]; reflexivity.
Qed.

(** C6.  [publish_message] makes one attempt: the queue is declared, the
    message is published at most once, and an error of either call reaches
    the caller as the very exception that was raised, after an error log
    line when it is an [Exception]; nothing is retried. *)
Theorem publish_error_surfaces
    (channel : Channel) (queue_name : string) (message : json)
    (E : Env) (h : list event) :
  let declare := QueueDeclare queue_name true in
  let publish := BasicPublish "" queue_name (Json.dumps message) 2 in
  let logged (e : Py.exn) :=
    if Py.is_Exception e
    then [LogError ("Failed to publish message: " +:+ Py.str e)] else [] in
  let run := Ingestor.publish_message channel queue_name message E h in
  match raises E h declare with
  | Some e => run = (Raise e, [declare] ++ logged e)
  | None =>
      match raises E (h ++ [declare]) publish with
      | Some e => run = (Raise e, [declare; publish] ++ logged e)
      | None =>
          exists published,
            is_log_info published = true /\
            run = (Ok tt, [declare; publish; published])
      end
  end
  /\ (count is_publish (snd run) <= 1)%nat.
Proof.
  cbv zeta. rewrite publish_message_eq. cbv zeta.
  destruct (raises E h _) as [e|].
  - split; [reflexivity|]. destruct (Py.is_Exception e); cbn; lia.
  - destruct (raises E _ _) as [e|].
    + split; [reflexivity|]. destruct (Py.is_Exception e); cbn; lia.
    + split; [|cbn; lia]. eexists. split; [|reflexivity]. reflexivity.
Qed.

Example rejected_publish_is_raised :
  Ingestor.publish_message 0%nat "game_events" (JObj []) publish_fails [] =
  (Raise channel_closed,
   [ QueueDeclare "game_events" true;
     BasicPublish "" "game_events" "{}" 2;
     LogError "Failed to publish message: Channel is closed" ]).
Proof. vm_compute. reflexivity. Qed.

(** ** What a computation can emit *)

Section Emits.

Variable E : Env.
Variable P : event -> Prop.

Lemma emits_ret {A} (a : A) : emits E P (ret a).
Proof. intros h. constructor. Qed.

Lemma emits_raise {A} e : emits E P (@raise A e).
Proof. intros h. constructor. Qed.

Lemma emits_running {A} : emits E P (@running A).
Proof. intros h. constructor. Qed.

Lemma emits_call ev : P ev -> emits E P (call ev).
Proof. intros Hev h. repeat constructor. exact Hev. Qed.

Lemma emits_logger_info msg : P (LogInfo msg) -> emits E P (logger_info msg).
Proof. intros Hev h. repeat constructor. exact Hev. Qed.

Lemma emits_logger_error msg : P (LogError msg) -> emits E P (logger_error msg).
Proof. intros Hev h. repeat constructor. exact Hev. Qed.

Lemma emits_bind {A B} (m : M A) (k : A -> M B) :
  emits E P m -> (forall a, emits E P (k a)) -> emits E P (bind m k).
Proof.
  intros Hm Hk h. unfold bind. specialize (Hm h).
  destruct (m E h) as [[a| |] es]; cbn in *; try exact Hm.
  specialize (Hk a (h ++ es)).
  destruct (k a E (h ++ es)) as [r es']. cbn in *.
  apply Forall_app. split; assumption.
Qed.

Lemma emits_try_except {A} (body : M A) handler :
  emits E P body ->
  (forall e k, handler e = Some k -> emits E P k) ->
  emits E P (try_except body handler).
Proof.
  intros Hb Hh h. unfold try_except. specialize (Hb h).
  destruct (body E h) as [[a| e |] es]; cbn in *; try exact Hb.
  destruct (handler e) as [k|] eqn:Hk; [|exact Hb].
  specialize (Hh e k Hk (h ++ es)).
  destruct (k E (h ++ es)) as [r es']. cbn in *.
  apply Forall_app. split; assumption.
Qed.

Lemma emits_try_finally {A} (body : M A) fin :
  emits E P body -> emits E P fin -> emits E P (try_finally body fin).
Proof.
  intros Hb Hf h. unfold try_finally. specialize (Hb h).
  destruct (body E h) as [[a| e |] es]; cbn in *; try exact Hb;
    specialize (Hf (h ++ es));
    destruct (fin E (h ++ es)) as [[[]| e' |] es']; cbn in *;
    apply Forall_app; split; assumption.
Qed.

Lemma emits_time_sleep d : P (Sleep d) -> emits E P (time_sleep d).
Proof.
  intros Hev. unfold time_sleep.
  destruct (d <? 0); [apply emits_raise | apply emits_call, Hev].
Qed.

Lemma emits_datetime_utcnow : emits E P datetime_utcnow.
Proof. intros h. constructor. Qed.

End Emits.

Lemma emits_bind_utcnow {A} E P (k : datetime -> M A) :
  (forall h0, emits E P (k (utcnow E h0))) -> emits E P (bind datetime_utcnow k).
Proof.
  intros Hk h. unfold bind, datetime_utcnow.
  specialize (Hk h (h ++ [])).
  destruct (k (utcnow E h) E (h ++ [])) as [r es]. exact Hk.
Qed.

Lemma emits_weaken {A} E (P Q : event -> Prop) (m : M A) :
  (forall ev, P ev -> Q ev) -> emits E P m -> emits E Q m.
Proof. intros HPQ Hm h. eapply Forall_impl; [exact HPQ | apply Hm]. Qed.

(** The connection manager only logs, connects and sleeps. *)
Lemma connect_loop_emits environ E fuel :
  forall d, emits E (fun ev => is_housekeeping ev = true) (connect_loop environ fuel d).
Proof.
  induction fuel as [|fuel IH]; intros d; [apply emits_running|].
  cbn [connect_loop]. apply emits_bind.
  - unfold connect_attempt. apply emits_try_except.
    + apply emits_bind; [apply emits_logger_info; reflexivity|]. intros _.
      apply emits_bind.
      * intros h. unfold BlockingConnection, call.
        destruct (raises E h _); repeat constructor.
      * intros c. apply emits_bind; [apply emits_logger_info; reflexivity|].
        intros _. apply emits_ret.
    + intros e k Hk. destruct (Py.is_Exception e); [|discriminate].
      injection Hk as <-.
      apply emits_bind; [apply emits_logger_error; reflexivity|]. intros _.
      apply emits_bind; [apply emits_logger_info; reflexivity|]. intros _.
      apply emits_bind; [apply emits_time_sleep; reflexivity|]. intros _.
      apply emits_ret.
  - intros [c|]; [apply emits_ret | apply IH].
Qed.

Lemma publish_message_emits E channel queue_name message_counter h0 :
  1 <= message_counter ->
  emits E (ingestor_event E queue_name)
    (Ingestor.publish_message channel queue_name
       (Ingestor.test_message message_counter (utcnow E h0))).
Proof.
  intros Hc. unfold Ingestor.publish_message. apply emits_try_except.
  - apply emits_bind; [apply emits_call; split; reflexivity|]. intros _.
    apply emits_bind.
    + apply emits_call. cbn. repeat split. exists message_counter, h0.
      split; [exact Hc | reflexivity].
    + intros _. apply emits_logger_info. exact I.
  - intros e k Hk. destruct (Py.is_Exception e); [|discriminate].
    injection Hk as <-.
    apply emits_bind; [apply emits_logger_error; exact I|]. intros _.
    apply emits_raise.
Qed.

Lemma publish_loop_emits E channel queue_name interval fuel :
  forall message_counter, 1 <= message_counter ->
  emits E (ingestor_event E queue_name)
    (Ingestor.publish_loop fuel channel queue_name interval message_counter).
Proof.
  induction fuel as [|fuel IH]; intros c Hc; [apply emits_running|].
  cbn [Ingestor.publish_loop]. apply emits_bind_utcnow. intros h0.
  apply emits_bind; [apply publish_message_emits, Hc|]. intros _.
  apply emits_bind; [apply emits_time_sleep; exact I|]. intros _.
  apply IH. lia.
Qed.

Lemma ingestor_shutdown_emits E P c :
  (forall msg, P (LogInfo msg)) -> P (Close c) -> emits E P (Ingestor.shutdown c).
Proof.
  intros Hlog Hclose. unfold Ingestor.shutdown.
  apply emits_bind; [|intros _; apply emits_logger_info, Hlog].
  apply emits_try_except.
  - apply emits_bind; [apply emits_call, Hclose|]. intros _.
    apply emits_logger_info, Hlog.
  - intros e k [= <-]. apply emits_ret.
Qed.

Lemma ingestor_guarded_loop_emits E fuel channel queue_name interval :
  emits E (ingestor_event E queue_name)
    (Ingestor.guarded_loop fuel channel queue_name interval).
Proof.
  unfold Ingestor.guarded_loop. apply emits_try_except.
  - apply emits_bind; [apply emits_logger_info; exact I|]. intros _.
    apply publish_loop_emits. lia.
  - intros e k Hk.
    destruct (Py.is_KeyboardInterrupt e);
      [injection Hk as <-; apply emits_logger_info; exact I|].
    destruct (Py.is_Exception e); [|discriminate].
    injection Hk as <-. apply emits_logger_error. exact I.
Qed.

(** Every event of the ingestor opens or closes the connection, or is an
    event of the publishing loop. *)
Lemma ingestor_main_emits environ fuel E :
  emits E
    (fun ev => is_lifecycle ev = true \/
               ingestor_event E (getenv (RABBITMQ_QUEUE environ) "game_events") ev)
    (Ingestor.main environ fuel).
Proof.
  unfold Ingestor.main.
  apply emits_bind; [apply emits_logger_info; right; exact I|]. intros _.
  apply emits_bind.
  - eapply emits_weaken; [|apply connect_loop_emits].
    intros [] Hev; try discriminate; (left; reflexivity) || (right; exact I).
  - intros c. apply emits_bind; [apply emits_call; left; reflexivity|]. intros _.
    apply emits_try_finally.
    + eapply emits_weaken; [|apply ingestor_guarded_loop_emits].
      intros ev Hev. right. exact Hev.
    + apply ingestor_shutdown_emits; [intros; right; exact I | left; reflexivity].
Qed.

Lemma message_get_emits E P message key : emits E P (Processor.message_get message key).
Proof. destruct message; intros h; constructor. Qed.

Lemma process_message_emits E queue_name ch method body :
  emits E (processor_event queue_name)
    (Processor.process_message ch method tt body).
Proof.
  unfold Processor.process_message. apply emits_try_except.
  - apply emits_bind.
    { unfold Processor.decode_utf8.
      destruct (Json.utf8_valid body); [apply emits_ret | apply emits_raise]. }
    intros text. apply emits_bind.
    { unfold Processor.json_loads.
      destruct (Json.loads text); [apply emits_ret | apply emits_raise]. }
    intros message.
    apply emits_bind; [apply emits_logger_info; exact I|]. intros _.
    apply emits_bind; [apply message_get_emits|]. intros status.
    apply emits_bind; [|intros _; apply emits_call; exact I].
    destruct (Processor.eq_str status "placeholder_data"); [|apply emits_ret].
    apply emits_bind; [apply emits_datetime_utcnow|]. intros now.
    apply emits_bind; [apply message_get_emits|]. intros game_id.
    apply emits_logger_info. exact I.
  - intros e k Hk.
    destruct (Py.is_JSONDecodeError e).
    { injection Hk as <-.
      apply emits_bind; [apply emits_logger_error; exact I|]. intros _.
      apply emits_call. reflexivity. }
    destruct (Py.is_Exception e); [|discriminate].
    injection Hk as <-.
    apply emits_bind; [apply emits_logger_error; exact I|]. intros _.
    apply emits_call. reflexivity.
Qed.

Lemma start_consuming_emits E queue_name channel fuel :
  emits E (processor_event queue_name) (Processor.start_consuming fuel channel).
Proof.
  induction fuel as [|fuel IH]; [apply emits_running|].
  cbn [Processor.start_consuming].
  apply emits_bind; [apply emits_call; exact I|]. intros _ h.
  destruct (delivery E h) as [[tag body]|]; [|constructor].
  revert h. change (emits E (processor_event queue_name)
    ((fun _ _ => (Ok tt, [Dispatch tag body])) ;;
     Processor.process_message channel (Processor.mk_deliver tag) tt body ;;
     Processor.start_consuming fuel channel)).
  apply emits_bind; [intros h; repeat constructor|]. intros _.
  apply emits_bind; [apply process_message_emits|]. intros _.
  exact IH.
Qed.

Lemma processor_shutdown_emits E P c :
  (forall msg, P (LogInfo msg)) -> P (Close c) -> emits E P (Processor.shutdown c).
Proof.
  intros Hlog Hclose. unfold Processor.shutdown.
  apply emits_bind; [|intros _; apply emits_logger_info, Hlog].
  apply emits_try_except.
  - apply emits_bind; [apply emits_call, Hclose|]. intros _.
    apply emits_logger_info, Hlog.
  - intros e k [= <-]. apply emits_ret.
Qed.

Lemma processor_guarded_consume_emits E fuel channel queue_name :
  emits E (processor_event queue_name)
    (Processor.guarded_consume fuel channel queue_name).
Proof.
  unfold Processor.guarded_consume. apply emits_try_except.
  - apply emits_bind; [apply emits_call; split; reflexivity|]. intros _.
    apply emits_bind; [apply emits_call; reflexivity|]. intros _.
    apply emits_bind; [apply emits_call; reflexivity|]. intros _.
    apply emits_bind; [apply emits_logger_info; exact I|]. intros _.
    apply start_consuming_emits.
  - intros e k Hk.
    destruct (Py.is_KeyboardInterrupt e).
    { injection Hk as <-.
      apply emits_bind; [apply emits_logger_info; exact I|]. intros _.
      apply emits_call. exact I. }
    destruct (Py.is_Exception e); [|discriminate].
    injection Hk as <-. apply emits_logger_error. exact I.
Qed.

(** Every event of the processor opens or closes the connection, or is an
    event of the consuming loop. *)
Lemma processor_main_emits environ fuel E :
  emits E
    (fun ev => is_lifecycle ev = true \/
               processor_event (getenv (RABBITMQ_QUEUE environ) "game_events") ev)
    (Processor.main environ fuel).
Proof.
  unfold Processor.main.
  apply emits_bind; [apply emits_logger_info; right; exact I|]. intros _.
  apply emits_bind.
  - eapply emits_weaken; [|apply connect_loop_emits].
    intros [] Hev; try discriminate; (left; reflexivity) || (right; exact I).
  - intros c. apply emits_bind; [apply emits_call; left; reflexivity|]. intros _.
    apply emits_try_finally.
    + eapply emits_weaken; [|apply processor_guarded_consume_emits].
      intros ev Hev. right. exact Hev.
    + apply processor_shutdown_emits; [intros; right; exact I | left; reflexivity].
Qed.

(** ** Queue declaration and persistence *)





Example ingestor_two_turns :
  filter is_channel_call (snd (Ingestor.main default_environ 2 quiet [])) =
  [ QueueDeclare "game_events" true;
    BasicPublish "" "game_events" (Json.dumps (Ingestor.test_message 1 noon)) 2;
    QueueDeclare "game_events" true;
    BasicPublish "" "game_events" (Json.dumps (Ingestor.test_message 2 noon)) 2 ].
Proof. vm_compute. reflexivity. Qed.

Example processor_start :
  filter is_channel_call (snd (Processor.main default_environ 1 quiet [])) =
  [ QueueDeclare "game_events" true; BasicConsume "game_events"; BasicQos 1 ].
Proof. vm_compute. reflexivity. Qed.

(** On a broker that starts without the queue, every request of the two
    programs is accepted, whichever starts first. *)
Example both_roles_on_one_broker :
  let ingestor := filter is_channel_call (snd (Ingestor.main default_environ 2 quiet [])) in
  let processor := filter is_channel_call (snd (Processor.main default_environ 1 quiet [])) in
  (exists st, Broker.run Broker.empty (map Broker.Client (ingestor ++ processor)) = Some st)
  /\
  (exists st, Broker.run Broker.empty (map Broker.Client (processor ++ ingestor)) = Some st).
Proof. split; eexists; vm_compute; reflexivity. Qed.

(** ** Prefetch *)

(** C5, at the failing input: a queue that already holds two messages when
    the processor starts.  The processor asks to consume before it sets the
    prefetch count, so the broker may push both messages in between: two
    deliveries are unacknowledged at once, with the prefetch count set
    to 1. *)
Theorem prefetch_set_after_consume :
  let calls :=
    filter is_channel_call (snd (Processor.main default_environ 1 quiet [])) in
  let steps :=
    [ Broker.Client (QueueDeclare "game_events" true);
      Broker.Client (BasicConsume "game_events");
      Broker.Push; Broker.Push;
      Broker.Client (BasicQos 1) ] in
  Broker.client_calls steps = calls /\
  exists st,
    Broker.run backlog steps = Some st /\
    Broker.prefetch st = 1 /\
    List.length (Broker.unacked st) = 2%nat.
Proof.
  cbv zeta. split; [vm_compute; reflexivity|].
  eexists. split; [vm_compute; reflexivity|]. split; reflexivity.
Qed.

(** Whatever the environment does, the prefetch count is set only right
    after the request to consume. *)
Ltac case_raises :=
  match goal with
  | |- context [raises ?E ?a ?b] => destruct (raises E a b) as [?e|]; cbn
  end.

Lemma qos_follows_consume E fuel channel queue_name h :
  let es := snd (Processor.guarded_consume fuel channel queue_name E h) in
  (exists rest, es = QueueDeclare queue_name true :: BasicConsume queue_name
                     :: BasicQos 1 :: rest)
  \/ filter is_qos es = [].
Proof.
  cbv zeta.
  unfold Processor.guarded_consume, try_except, bind, call, logger_info, logger_error.
  destruct (raises E h _) as [e|]; cbn.
  { right. destruct (Py.is_KeyboardInterrupt e); cbn.
    - try case_raises; reflexivity.
    - destruct (Py.is_Exception e); reflexivity. }
  destruct (raises E (h ++ [QueueDeclare queue_name true]) _) as [e|]; cbn.
  { right. destruct (Py.is_KeyboardInterrupt e); cbn.
    - try case_raises; reflexivity.
    - destruct (Py.is_Exception e); reflexivity. }
  left.
  destruct (raises E ((h ++ _) ++ _) (BasicQos 1)) as [e|]; cbn.
  { destruct (Py.is_KeyboardInterrupt e); cbn.
    - try case_raises; eexists; reflexivity.
    - destruct (Py.is_Exception e); eexists; reflexivity. }
  destruct (Processor.start_consuming fuel channel E _) as [[[]|e|] es]; cbn;
    try (eexists; reflexivity).
  destruct (Py.is_KeyboardInterrupt e); cbn.
  - try case_raises; eexists; reflexivity.
  - destruct (Py.is_Exception e); eexists; reflexivity.
Qed.

Lemma remove_tag_length tag u m u' :
  Broker.remove_tag tag u = Some (m, u') -> List.length u = S (List.length u').
Proof.
  revert m u'. induction u as [|[t x] u IH]; intros m u'; cbn; [discriminate|].
  destruct (t =? tag)%N; [intros [= <- <-]; reflexivity|].
  destruct (Broker.remove_tag tag u) as [[m' u'']|]; [|discriminate].
  intros [= <- <-]. cbn. f_equal. eapply IH. reflexivity.
Qed.

(** Had the prefetch count been 1 before the broker could push, no step of
    the channel would bring a second unacknowledged delivery. *)
Lemma prefetch_one_bounds_unacked (st st' : Broker.state) a :
  Broker.prefetch st = 1 ->
  (List.length (Broker.unacked st) <= 1)%nat ->
  (forall n, a <> Broker.Client (BasicQos n)) ->
  Broker.step st a = Some st' ->
  Broker.prefetch st' = 1 /\ (List.length (Broker.unacked st') <= 1)%nat.
Proof.
  intros Hp Hu Hq.
  destruct a as [ev|]; cbn.
  - destruct ev; cbn; try (intros [= <-]; split; assumption).
    + destruct (Broker.lookup _ _) as [q|]; [|intros [= <-]; split; assumption].
      destruct (Bool.eqb _ _); intros [= <-]; split; assumption.
    + destruct (Broker.lookup _ _) as [q|]; intros [= <-]; split; assumption.
    + destruct (Broker.lookup _ _) as [q|]; intros [= <-]; split; assumption.
    + exfalso. eapply Hq. reflexivity.
    + destruct (Broker.remove_tag _ _) as [[m u]|] eqn:Hr; [|discriminate].
      intros [= <-]. cbn. split; [assumption|].
      apply remove_tag_length in Hr. lia.
    + destruct (Broker.remove_tag _ _) as [[m u]|] eqn:Hr; [|discriminate].
      apply remove_tag_length in Hr.
      destruct requeue; [destruct (Broker.consumer st) as [name|];
        [destruct (Broker.lookup _ _)|]|];
        intros [= <-]; cbn; (split; [assumption | lia]).
  - unfold Broker.push.
    destruct (Broker.consumer st) as [name|]; [|discriminate].
    destruct (Broker.lookup _ _) as [[d [|m ready]]|]; try discriminate.
    unfold Broker.may_push. rewrite Hp.
    destruct (Z.ltb_spec (Z.of_nat (List.length (Broker.unacked st))) 1);
      cbn; [|discriminate].
    intros [= <-]. cbn. split; [reflexivity|]. rewrite length_app. cbn. lia.
Qed.

(** ** Shutdown *)

Lemma ingestor_shutdown_eq E c h :
  Ingestor.shutdown c E h =
  (Ok tt,
   Close c ::
   match raises E h (Close c) with
   | None => [LogInfo "RabbitMQ connection closed"]
   | Some _ => []
   end ++ [LogInfo "NFL Ingestor service shutdown complete"]).
Proof.
  unfold Ingestor.shutdown, try_except, bind, call, logger_info, ret.
  destruct (raises E h (Close c)); reflexivity.
Qed.

Lemma processor_shutdown_eq E c h :
  Processor.shutdown c E h =
  (Ok tt,
   Close c ::
   match raises E h (Close c) with
   | None => [LogInfo "RabbitMQ connection closed"]
   | Some _ => []
   end ++ [LogInfo "NFL Processor service shutdown complete"]).
Proof.
  unfold Processor.shutdown, try_except, bind, call, logger_info, ret.
  destruct (raises E h (Close c)); reflexivity.
Qed.

(** Once the [try] block of the ingestor is entered, every way out of it
    closes the connection exactly once: the events are those of the loop,
    then the one [close], then log lines only. *)
Lemma ingestor_exit_closes_once E fuel c queue_name interval h r es :
  try_finally (Ingestor.guarded_loop fuel c queue_name interval)
    (Ingestor.shutdown c) E h = (r, es) ->
  r <> Running ->
  exists loop_events logs,
    es = loop_events ++ Close c :: logs /\
    Forall (ingestor_event E queue_name) loop_events /\
    Forall (fun ev => is_log_info ev = true) logs.
Proof.
  unfold try_finally.
  pose proof (ingestor_guarded_loop_emits E fuel c queue_name interval h) as Hl.
  destruct (Ingestor.guarded_loop fuel c queue_name interval E h) as [rb esb].
  cbn [snd] in Hl. rewrite ingestor_shutdown_eq.
  destruct rb as [[]|e|]; intros [= <- <-] Hr; try congruence;
    exists esb; eexists; (split; [reflexivity|]); (split; [exact Hl|]);
    destruct (raises E (h ++ esb) (Close c)); repeat constructor.
Qed.

Lemma processor_exit_closes_once E fuel c queue_name h r es :
  try_finally (Processor.guarded_consume fuel c queue_name)
    (Processor.shutdown c) E h = (r, es) ->
  r <> Running ->
  exists loop_events logs,
    es = loop_events ++ Close c :: logs /\
    Forall (processor_event queue_name) loop_events /\
    Forall (fun ev => is_log_info ev = true) logs.
Proof.
  unfold try_finally.
  pose proof (processor_guarded_consume_emits E fuel c queue_name h) as Hl.
  destruct (Processor.guarded_consume fuel c queue_name E h) as [rb esb].
  cbn [snd] in Hl. rewrite processor_shutdown_eq.
  destruct rb as [[]|e|]; intros [= <- <-] Hr; try congruence;
    exists esb; eexists; (split; [reflexivity|]); (split; [exact Hl|]);
    destruct (raises E (h ++ esb) (Close c)); repeat constructor.
Qed.

(** After CTRL+C in the publishing loop, the ingestor writes log lines and
    closes the connection, and does nothing else. *)
Lemma ingestor_interrupt_stops_publishing E fuel c queue_name interval h e es :
  let started :=
    LogInfo ("Starting message publishing loop (every "
             +:+ Py.str_of_int interval +:+ " seconds)") in
  Ingestor.publish_loop fuel c queue_name interval 1 E (h ++ [started])
    = (Raise e, es) ->
  Py.is_KeyboardInterrupt e = true ->
  exists logs,
    Forall (fun ev => is_log_info ev = true) logs /\
    try_finally (Ingestor.guarded_loop fuel c queue_name interval)
      (Ingestor.shutdown c) E h
    = (Ok tt,
       started :: es
       ++ LogInfo "Received shutdown signal, stopping service" :: Close c :: logs).
Proof.
  cbv zeta. intros Hloop Hki.
  unfold try_finally, Ingestor.guarded_loop, try_except, bind, logger_info.
  rewrite Hloop, Hki. cbn. rewrite ingestor_shutdown_eq.
  eexists. split; [|rewrite <- app_assoc; reflexivity].
  destruct (raises E _ (Close c)); repeat constructor.
Qed.

Example ingestor_interrupted_in_third_sleep :
  filter (fun ev => negb (is_log_info ev))
    (snd (Ingestor.main default_environ 10 (interrupted_after 2 []) [])) =
  [ Connect (connection_parameters default_environ); OpenChannel 2%nat;
    QueueDeclare "game_events" true;
    BasicPublish "" "game_events" (Json.dumps (Ingestor.test_message 1 noon)) 2;
    Sleep 10;
    QueueDeclare "game_events" true;
    BasicPublish "" "game_events" (Json.dumps (Ingestor.test_message 2 noon)) 2;
    Sleep 10;
    QueueDeclare "game_events" true;
    BasicPublish "" "game_events" (Json.dumps (Ingestor.test_message 3 noon)) 2;
    Sleep 10;
    Close 2%nat ]
  /\ fst (Ingestor.main default_environ 10 (interrupted_after 2 []) []) = Ok tt.
Proof. split; vm_compute; reflexivity. Qed.

Example processor_interrupted_after_two_deliveries :
  filter (fun ev => negb (is_log_info ev || is_log_error ev))
    (snd (Processor.main default_environ 10
            (interrupted_after 2 [sample_body; "not json"]) [])) =
  [ Connect (connection_parameters default_environ); OpenChannel 2%nat;
    QueueDeclare "game_events" true; BasicConsume "game_events"; BasicQos 1;
    WaitDelivery; Dispatch 1 sample_body; BasicAck 1;
    WaitDelivery; Dispatch 2 "not json"; BasicNack 2 false;
    WaitDelivery; StopConsuming;
    Close 2%nat ]
  /\ fst (Processor.main default_environ 10
            (interrupted_after 2 [sample_body; "not json"]) []) = Ok tt.
Proof. split; vm_compute; reflexivity. Qed.

(** C8, at the failing input: the connection is accepted and the broker
    drops it before [connection.channel()] returns.  The call sits before
    the [try] block, so the exception leaves [main] and the connection that
    was opened is never closed, in either program. *)
Theorem connection_left_open_when_channel_fails :
  let ingestor := Ingestor.main default_environ 3 channel_refused [] in
  let processor := Processor.main default_environ 3 channel_refused [] in
  (fst ingestor = Raise channel_closed /\
   filter is_lifecycle (snd ingestor) =
     [Connect (connection_parameters default_environ); OpenChannel 2%nat] /\
   count is_close (snd ingestor) = 0%nat) /\
  (fst processor = Raise channel_closed /\
   filter is_lifecycle (snd processor) =
     [Connect (connection_parameters default_environ); OpenChannel 2%nat] /\
   count is_close (snd processor) = 0%nat).
Proof. cbv zeta. repeat split; vm_compute; reflexivity. Qed.

(** ** The wire format *)

Lemma append_String c s t : String c s +:+ t = String c (s +:+ t).
Proof. reflexivity. Qed.

Lemma append_Empty t : "" +:+ t = t.
Proof. reflexivity. Qed.

Lemma code_digit_char d : (d < 10)%N -> Json.code (digit_char d) = (48 + d)%N.
Proof.
  intros Hd. unfold Json.code, digit_char. apply N_ascii_embedding. lia.
Qed.

Lemma is_digit_digit_char d : (d < 10)%N -> Json.is_digit (digit_char d) = true.
Proof.
  intros Hd. unfold Json.is_digit, Json.between. rewrite code_digit_char by exact Hd.
  apply andb_true_intro. split; apply N.leb_le; lia.
Qed.

Lemma is_digit_plain c : Json.is_digit c = true -> Json.plain_char c = true.
Proof.
  unfold Json.is_digit, Json.plain_char, Json.between.
  intros H. apply andb_prop in H as [H1 H2].
  apply N.leb_le in H1, H2.
  repeat (apply andb_true_intro; split).
  - apply N.leb_le. lia.
  - apply N.leb_le. lia.
  - apply negb_true_iff, N.eqb_neq. lia.
  - apply negb_true_iff, N.eqb_neq. lia.
Qed.

Lemma plain_ascii c : Json.plain_char c = true -> (Json.code c <? 128)%N = true.
Proof.
  unfold Json.plain_char, Json.between. intros H.
  apply andb_prop in H as [H _]. apply andb_prop in H as [H _].
  apply andb_prop in H as [_ H]. apply N.leb_le in H. apply N.ltb_lt. lia.
Qed.

Lemma all_digits_plain s : Json.all_digits s = true -> Json.all_plain s = true.
Proof.
  induction s as [|c s IH]; [reflexivity|]. cbn.
  intros H. apply andb_prop in H as [Hc Hs].
  rewrite (is_digit_plain c Hc). exact (IH Hs).
Qed.

Lemma all_plain_ascii s : Json.all_plain s = true -> Json.all_ascii s = true.
Proof.
  induction s as [|c s IH]; [reflexivity|]. cbn.
  intros H. apply andb_prop in H as [Hc Hs].
  rewrite (plain_ascii c Hc). exact (IH Hs).
Qed.

Lemma all_plain_app s t :
  Json.all_plain (s +:+ t) = Json.all_plain s && Json.all_plain t.
Proof.
  induction s as [|c s IH]; [reflexivity|].
  rewrite append_String. cbn. rewrite IH. apply andb_assoc.
Qed.

Lemma all_digits_app s t :
  Json.all_digits (s +:+ t) = Json.all_digits s && Json.all_digits t.
Proof.
  induction s as [|c s IH]; [reflexivity|].
  rewrite append_String. cbn. rewrite IH. apply andb_assoc.
Qed.

Lemma all_ascii_app s t :
  Json.all_ascii (s +:+ t) = Json.all_ascii s && Json.all_ascii t.
Proof.
  induction s as [|c s IH]; [reflexivity|].
  rewrite append_String. cbn. rewrite IH. apply andb_assoc.
Qed.

Lemma string_of_uint_digits d : Json.all_digits (NilEmpty.string_of_uint d) = true.
Proof. induction d; cbn; assumption || reflexivity. Qed.

Lemma digits_all_digits width n : Json.all_digits (digits width n) = true.
Proof.
  induction width as [|w IH]; [reflexivity|].
  cbn [digits Json.all_digits]. rewrite IH, andb_true_r.
  apply is_digit_digit_char. apply N.mod_lt. discriminate.
Qed.

Lemma zeros_all_digits n : Json.all_digits (zeros n) = true.
Proof. induction n; [reflexivity | exact IHn]. Qed.

Lemma plain_char_facts c :
  Json.plain_char c = true ->
  (Json.code c <? 128)%N = true /\ (Json.code c <? 32)%N = false /\
  Json.between 32 (Json.code c) 126 = true /\
  (Json.code c =? 34)%N = false /\ (Json.code c =? 92)%N = false /\
  (Json.code c =? 10)%N = false /\ (Json.code c =? 13)%N = false /\
  (Json.code c =? 9)%N = false /\ (Json.code c =? 8)%N = false /\
  (Json.code c =? 12)%N = false.
Proof.
  unfold Json.plain_char. intros H.
  apply andb_prop in H as [H H92]. apply andb_prop in H as [H H34].
  apply negb_true_iff in H92, H34.
  pose proof H as Hb. unfold Json.between in H.
  apply andb_prop in H as [Hlo Hhi]. apply N.leb_le in Hlo, Hhi.
  repeat split; try assumption;
    try (apply N.ltb_lt; lia); try (apply N.ltb_ge; lia);
    apply N.eqb_neq; lia.
Qed.

(** A plain string is its own literal body. *)
Lemma escape_plain s : Json.all_plain s = true -> Json.escape s = s.
Proof.
  induction s as [|c s IH]; [reflexivity|].
  cbn [Json.all_plain]. intros H. apply andb_prop in H as [Hc Hs].
  destruct (plain_char_facts c Hc)
    as (H128 & _ & Hb & H34 & H92 & H10 & H13 & H9 & H8 & H12).
  cbn [Json.escape]. cbv zeta.
  rewrite H128, H34, H92, H10, H13, H9, H8, H12, Hb.
  rewrite append_String, append_Empty, (IH Hs). reflexivity.
Qed.

(** The scanner reads a plain string back up to its closing quote. *)
Lemma scanstring_plain s :
  forall fuel rest,
    Json.all_plain s = true -> (String.length s < fuel)%nat ->
    Json.scanstring fuel (s +:+ String Json.dq rest) = Some (s, rest).
Proof.
  induction s as [|c s IH]; intros fuel rest Hs Hf.
  - destruct fuel; [cbn in Hf; lia|]. reflexivity.
  - cbn [Json.all_plain] in Hs. apply andb_prop in Hs as [Hc Hs].
    destruct (plain_char_facts c Hc) as (_ & H32 & _ & H34 & H92 & _).
    destruct fuel; [cbn in Hf; lia|].
    rewrite append_String. cbn [Json.scanstring]. cbv zeta.
    rewrite H34, H32, H92.
    rewrite (IH fuel rest Hs); [reflexivity|]. cbn in Hf. lia.
Qed.

Lemma skip_ws_nonws c s :
  Json.is_ws c = false -> Json.skip_ws (String c s) = String c s.
Proof. intros H. cbn. rewrite H. reflexivity. Qed.

Lemma take_digits_app_gen s rest :
  Json.all_digits s = true -> Json.take_digits rest = ("", rest) ->
  Json.take_digits (s +:+ rest) = (s, rest).
Proof.
  intros Hs Hr. induction s as [|c s IH]; [exact Hr|].
  cbn [Json.all_digits] in Hs. apply andb_prop in Hs as [Hc Hs].
  rewrite append_String. cbn [Json.take_digits]. rewrite Hc, (IH Hs). reflexivity.
Qed.

Lemma take_digits_app s rest :
  Json.all_digits s = true -> closes_value rest ->
  Json.take_digits (s +:+ rest) = (s, rest).
Proof.
  intros Hs Hr. apply take_digits_app_gen; [exact Hs|].
  destruct Hr as [[r ->]|[r ->]]; reflexivity.
Qed.

Lemma to_uint_head p :
  match Pos.to_uint p with
  | Decimal.Nil | Decimal.D0 _ => False
  | _ => True
  end.
Proof.
  pose proof (DecimalPos.Unsigned.to_of (Pos.to_uint p)) as Hn.
  rewrite DecimalPos.Unsigned.of_to in Hn. cbn [N.to_uint] in Hn.
  pose proof (DecimalPos.Unsigned.to_uint_nonzero p) as Hz.
  destruct (Pos.to_uint p) as [|l| | | | | | | | |]; try exact I.
  - discriminate Hn.
  - rewrite DecimalFacts.unorm_D0 in Hn. unfold Decimal.unorm in Hn.
    pose proof (DecimalFacts.nzhead_nonzero l l) as Hnz.
    destruct (Decimal.nzhead l) eqn:Hl; exfalso; apply Hnz; congruence.
Qed.

Lemma int_of_string_uint d :
  d <> Decimal.Nil ->
  NilZero.int_of_string (NilEmpty.string_of_uint d) = Some (Decimal.Pos d).
Proof.
  intros Hd. rewrite <- (NilZero.isi (Decimal.Pos d)); [|congruence|discriminate].
  destruct d; congruence || reflexivity.
Qed.

Lemma int_of_string_neg_uint d :
  d <> Decimal.Nil ->
  NilZero.int_of_string (String "-" (NilEmpty.string_of_uint d)) = Some (Decimal.Neg d).
Proof.
  intros Hd. rewrite <- (NilZero.isi (Decimal.Neg d)); [|discriminate|congruence].
  destruct d; congruence || reflexivity.
Qed.

Ltac scan_printed l rest Hr lemma :=
  cbn [NilZero.string_of_int NilZero.string_of_uint NilEmpty.string_of_uint];
  rewrite ?append_String; unfold Json.scan_number;
  cbn -[Json.take_digits NilZero.int_of_string Z.of_int];
  rewrite (take_digits_app _ rest (string_of_uint_digits l) Hr);
  destruct Hr as [[r ->]|[r ->]];
  cbn -[NilZero.int_of_string Z.of_int NilEmpty.string_of_uint];
  rewrite ?append_String, ?append_Empty;
  match goal with
  | |- context [Z.of_int (?sg ?d)] =>
      match goal with
      | |- context [NilZero.int_of_string ?s] =>
          replace (NilZero.int_of_string s) with (Some (sg d))
            by (symmetry; exact (lemma d ltac:(discriminate)))
      end
  end;
  reflexivity.

(** The scanner reads a printed integer back. *)
Lemma scan_number_str_of_int n rest :
  closes_value rest ->
  Json.scan_number (Py.str_of_int n +:+ rest) = Some (JInt n, rest).
Proof.
  intros Hr. unfold Py.str_of_int.
  rewrite <- (DecimalZ.of_to n) at 2.
  destruct n as [|p|p]; cbn [Z.to_int].
  - destruct Hr as [[r ->]|[r ->]]; reflexivity.
  - pose proof (to_uint_head p) as Hh.
    destruct (Pos.to_uint p) as [|l|l|l|l|l|l|l|l|l|l] eqn:Hd; try contradiction.
    all: scan_printed l rest Hr int_of_string_uint.
  - pose proof (to_uint_head p) as Hh.
    destruct (Pos.to_uint p) as [|l|l|l|l|l|l|l|l|l|l] eqn:Hd; try contradiction.
    all: scan_printed l rest Hr int_of_string_neg_uint.
Qed.

Lemma str_of_int_head n :
  exists ch tail,
    Py.str_of_int n = String ch tail /\
    In ch ["0"; "1"; "2"; "3"; "4"; "5"; "6"; "7"; "8"; "9"; "-"]%char.
Proof.
  unfold Py.str_of_int. destruct n as [|p|p]; cbn [Z.to_int].
  - eexists _, _. split; [reflexivity|]. cbn. auto.
  - pose proof (to_uint_head p) as Hh.
    destruct (Pos.to_uint p); try contradiction;
      eexists _, _; (split; [reflexivity|]); cbn; auto 12.
  - eexists _, _. split; [reflexivity|]. cbn. auto 12.
Qed.

Lemma scan_once_str_of_int fuel n rest :
  closes_value rest ->
  Json.scan_once (S fuel) (Py.str_of_int n +:+ rest) = Some (JInt n, rest).
Proof.
  intros Hr. pose proof (scan_number_str_of_int n rest Hr) as Hn.
  destruct (str_of_int_head n) as (ch & tail & Heq & Hch).
  rewrite Heq, append_String in *.
  cbn in Hch.
  repeat (destruct Hch as [<-|Hch];
          [cbn -[Json.scan_number]; rewrite Hn; reflexivity|]).
  contradiction.
Qed.

Lemma skip_ws_str_of_int n rest :
  Json.skip_ws (Py.str_of_int n +:+ rest) = Py.str_of_int n +:+ rest.
Proof.
  destruct (str_of_int_head n) as (ch & tail & -> & Hch).
  rewrite append_String.
  cbn in Hch.
  repeat (destruct Hch as [<-|Hch]; [reflexivity|]).
  contradiction.
Qed.

Lemma append_assoc s t u : (s +:+ t) +:+ u = s +:+ (t +:+ u).
Proof.
  induction s as [|c s IH]; [reflexivity|].
  rewrite !append_String, IH. reflexivity.
Qed.

Lemma length_append s t :
  String.length (s +:+ t) = (String.length s + String.length t)%nat.
Proof.
  induction s as [|c s IH]; [reflexivity|].
  rewrite append_String. cbn. rewrite IH. reflexivity.
Qed.

(** The scanner reads the literal of a plain string back. *)
Lemma scan_once_quote fuel s rest :
  Json.all_plain s = true ->
  Json.scan_once (S fuel) (Json.quote s +:+ rest) = Some (JStr s, rest).
Proof.
  intros Hs. unfold Json.quote. rewrite append_String.
  cbn [Json.scan_once]. cbv zeta.
  change (Json.code Json.dq =? 34)%N with true. cbv iota.
  rewrite (escape_plain s Hs), append_assoc, append_String, append_Empty.
  rewrite scanstring_plain; [reflexivity | exact Hs |].
  rewrite length_append. cbn. lia.
Qed.

Lemma skip_ws_quote s rest :
  Json.skip_ws (Json.quote s +:+ rest) = Json.quote s +:+ rest.
Proof. reflexivity. Qed.

Lemma dumps_pairs_cons dump k x l :
  Json.dumps_pairs dump ((k, x) :: l) =
  Json.quote k +:+ ": " +:+ dump x
  +:+ match l with [] => "" | _ => ", " +:+ Json.dumps_pairs dump l end.
Proof. reflexivity. Qed.

Lemma scan_once_flat fuel v rest :
  flat_value v -> closes_value rest -> (0 < fuel)%nat ->
  Json.scan_once fuel (Json.dumps v +:+ rest) = Some (v, rest)
  /\ Json.skip_ws (Json.dumps v +:+ rest) = Json.dumps v +:+ rest.
Proof.
  intros Hv Hr Hf. destruct fuel as [|fuel]; [lia|].
  destruct v; try contradiction; cbn [Json.dumps].
  - split; [apply scan_once_str_of_int, Hr | apply skip_ws_str_of_int].
  - split; [apply scan_once_quote, Hv | apply skip_ws_quote].
Qed.

Lemma skip_ws_colon s : Json.skip_ws (String ":" s) = String ":" s.
Proof. reflexivity. Qed.

Lemma skip_ws_comma s : Json.skip_ws (String "," s) = String "," s.
Proof. reflexivity. Qed.

Lemma skip_ws_brace s : Json.skip_ws (String "}" s) = String "}" s.
Proof. reflexivity. Qed.

Lemma skip_ws_space s : Json.skip_ws (String " " s) = Json.skip_ws s.
Proof. reflexivity. Qed.

(** The scanner reads the pairs of a flat object back. *)
Lemma scan_pairs_flat fields :
  forall acc fuel rest,
    fields <> [] -> flat_fields fields -> (List.length fields < fuel)%nat ->
    Json.scan_pairs fuel (Json.dumps_pairs Json.dumps fields +:+ String "}" rest) acc
    = Some (JObj (dict_of acc fields), rest).
Proof.
  induction fields as [|[k x] l IH]; intros acc fuel rest Hne Hflat Hfuel;
    [congruence|].
  inversion Hflat as [|? ? [Hk Hx] Hl]; subst. cbn [fst snd] in Hk, Hx.
  destruct fuel as [|fuel]; [cbn in Hfuel; lia|].
  assert (Hf : (0 < fuel)%nat) by (cbn in Hfuel; lia).
  rewrite dumps_pairs_cons. unfold Json.quote at 1.
  rewrite !append_assoc, !append_String, !append_Empty.
  remember (match l with
            | [] => ""
            | _ :: _ => String "," (String " " (Json.dumps_pairs Json.dumps l))
            end +:+ String "}" rest) as T eqn:HeqT.
  assert (HT : closes_value T)
    by (subst T; destruct l; [right|left]; eexists; reflexivity).
  destruct (scan_once_flat fuel x T Hx HT Hf) as [Hscan Hskip].
  cbn [Json.scan_pairs].
  change (Json.code Json.dq =? 34)%N with true. cbn [negb].
  rewrite (escape_plain k Hk), append_assoc, !append_String, !append_Empty.
  rewrite scanstring_plain; [|exact Hk|rewrite length_append; cbn; lia].
  rewrite skip_ws_colon, skip_ws_space, Hskip, Hscan.
  subst T. destruct l as [|[k' x'] l'].
  - rewrite append_Empty, skip_ws_brace. reflexivity.
  - rewrite !append_String, skip_ws_comma, skip_ws_space.
    replace (Json.skip_ws (Json.dumps_pairs Json.dumps ((k', x') :: l')
                           +:+ String "}" rest))
      with (Json.dumps_pairs Json.dumps ((k', x') :: l') +:+ String "}" rest)
      by reflexivity.
    apply IH; [discriminate | exact Hl | cbn in Hfuel |- *; lia].
Qed.

Lemma scan_once_object fuel s :
  Json.scan_once (S fuel) (String "{" (String Json.dq s))
  = Json.scan_pairs fuel (String Json.dq s) [].
Proof. reflexivity. Qed.

Lemma dumps_pairs_length dump fields :
  (List.length fields <= String.length (Json.dumps_pairs dump fields))%nat.
Proof.
  induction fields as [|[k x] l IH]; [cbn; lia|].
  rewrite dumps_pairs_cons. unfold Json.quote.
  rewrite append_String. cbn [String.length List.length].
  rewrite !length_append.
  destruct l as [|kv l']; [cbn; lia|].
  rewrite !length_append. cbn [String.length] in *. cbn [List.length] in *. lia.
Qed.

Lemma dumps_object fields :
  Json.dumps (JObj fields) = "{" +:+ Json.dumps_pairs Json.dumps fields +:+ "}".
Proof. reflexivity. Qed.

(** [json.loads(json.dumps(d)) == d] for a flat object [d] that is not
    empty. *)
Lemma loads_dumps_flat fields :
  fields <> [] -> flat_fields fields ->
  Json.loads (Json.dumps (JObj fields)) = Some (JObj (dict_of [] fields)).
Proof.
  intros Hne Hflat. unfold Json.loads. rewrite dumps_object.
  rewrite append_String, append_Empty.
  pose proof (dumps_pairs_length Json.dumps fields) as Hlen.
  cbn [String.length]. rewrite length_append.
  replace (2 * S (String.length (Json.dumps_pairs Json.dumps fields)
                  + String.length "}") + 2)%nat
    with (S (2 * String.length (Json.dumps_pairs Json.dumps fields) + 5))%nat
    by (cbn [String.length]; lia).
  replace (Json.skip_ws (String "{" (Json.dumps_pairs Json.dumps fields +:+ "}")))
    with (String "{" (Json.dumps_pairs Json.dumps fields +:+ "}"))
    by reflexivity.
  assert (Hs : exists s, Json.dumps_pairs Json.dumps fields +:+ "}"
                         = String Json.dq s).
  { destruct fields as [|[k x] l]; [congruence|].
    rewrite dumps_pairs_cons. unfold Json.quote.
    rewrite !append_String. eexists. reflexivity. }
  destruct Hs as [s Hs]. rewrite Hs, scan_once_object, <- Hs.
  rewrite scan_pairs_flat; [reflexivity | exact Hne | exact Hflat | lia].
Qed.

Example loads_dumps_sample :
  Json.loads (Json.dumps (Ingestor.test_message 1000 noon))
  = Some (Ingestor.test_message 1000 noon).
Proof. vm_compute. reflexivity. Qed.

Lemma digits_2 n :
  digits 2 n =
  String (digit_char ((n / 10) mod 10)) (String (digit_char (n mod 10)) "").
Proof.
  cbn [digits]. change (10 ^ N.of_nat 1)%N with 10%N.
  change (10 ^ N.of_nat 0)%N with 1%N. rewrite N.div_1_r. reflexivity.
Qed.

Lemma digits_4 n :
  digits 4 n =
  String (digit_char ((n / 1000) mod 10))
    (String (digit_char ((n / 100) mod 10))
       (String (digit_char ((n / 10) mod 10))
          (String (digit_char (n mod 10)) ""))).
Proof.
  cbn [digits]. change (10 ^ N.of_nat 3)%N with 1000%N.
  change (10 ^ N.of_nat 2)%N with 100%N. change (10 ^ N.of_nat 1)%N with 10%N.
  change (10 ^ N.of_nat 0)%N with 1%N. rewrite N.div_1_r. reflexivity.
Qed.

Lemma mod_10_lt n : (n mod 10 < 10)%N.
Proof. apply N.mod_lt. discriminate. Qed.

Lemma two_digits_spec n lo hi :
  (lo <= n)%N -> (n <= hi)%N -> (hi < 100)%N ->
  in_range (two_digits (digit_char ((n / 10) mod 10)) (digit_char (n mod 10))) lo hi
  = true.
Proof.
  intros Hlo Hhi Hh. unfold two_digits.
  rewrite !is_digit_digit_char by apply mod_10_lt. cbn [andb in_range].
  rewrite !code_digit_char by apply mod_10_lt.
  assert (Hn : (10 * (48 + (n / 10) mod 10 - 48) + (48 + n mod 10 - 48) = n)%N).
  { assert (Hsub : forall a, (48 + a - 48 = a)%N) by (intros; lia).
    rewrite !Hsub.
    rewrite (N.mod_small (n / 10) 10)
      by (apply N.Div0.div_lt_upper_bound; lia).
    symmetry. apply N.div_mod. discriminate. }
  rewrite Hn. apply andb_true_intro. split; apply N.leb_le; assumption.
Qed.

Lemma fraction_and_zone_isoformat us :
  fraction_and_zone
    ((if (us =? 0)%N then "" else "." +:+ digits 6 us) +:+ "Z") = true.
Proof.
  destruct (us =? 0)%N; [reflexivity|].
  rewrite append_assoc, append_String, append_Empty.
  unfold fraction_and_zone.
  change (Json.code "." =? 90)%N with false.
  change (Json.code "." =? 46)%N with true. cbv iota.
  rewrite take_digits_app_gen;
    [reflexivity | apply digits_all_digits | reflexivity].
Qed.

(** The timestamp of a well-formed instant is an ISO-8601 instant. *)
Lemma isoformat_iso8601 t :
  datetime_ok t = true -> iso8601_utc (isoformat t +:+ "Z") = true.
Proof.
  unfold datetime_ok. intros H.
  repeat (apply andb_prop in H as [H ?]).
  repeat match goal with
         | H : (_ <=? _)%N = true |- _ => apply N.leb_le in H
         end.
  unfold isoformat. rewrite digits_4, !digits_2.
  rewrite !append_assoc, !append_String, !append_Empty.
  cbn [iso8601_utc].
  rewrite !is_digit_digit_char by apply mod_10_lt.
  rewrite (two_digits_spec (month t) 1 12), (two_digits_spec (day t) 1 31),
    (two_digits_spec (hour t) 0 23), (two_digits_spec (minute t) 0 59),
    (two_digits_spec (second t) 0 59) by lia.
  rewrite fraction_and_zone_isoformat. reflexivity.
Qed.

Lemma str_of_int_plain n : Json.all_plain (Py.str_of_int n) = true.
Proof.
  unfold Py.str_of_int. destruct n as [|p|p]; cbn [Z.to_int NilZero.string_of_int].
  - reflexivity.
  - apply all_digits_plain. destruct (Pos.to_uint p); try reflexivity;
      apply (string_of_uint_digits (_ _)).
  - cbn [Json.all_plain]. apply andb_true_intro. split; [reflexivity|].
    apply all_digits_plain. destruct (Pos.to_uint p); try reflexivity;
      apply (string_of_uint_digits (_ _)).
Qed.

Lemma zeros_plain n : Json.all_plain (zeros n) = true.
Proof. apply all_digits_plain, zeros_all_digits. Qed.

Lemma format_03d_plain n : Json.all_plain (format_03d n) = true.
Proof.
  unfold format_03d. destruct (n <? 0).
  - rewrite append_String, append_Empty. cbn [Json.all_plain].
    rewrite all_plain_app, zeros_plain, str_of_int_plain. reflexivity.
  - rewrite all_plain_app, zeros_plain, str_of_int_plain. reflexivity.
Qed.

Lemma digits_plain width n : Json.all_plain (digits width n) = true.
Proof. apply all_digits_plain, digits_all_digits. Qed.

Lemma isoformat_plain t : Json.all_plain (isoformat t +:+ "Z") = true.
Proof.
  unfold isoformat. rewrite !all_plain_app, !digits_plain.
  destruct (microsecond t =? 0)%N; [reflexivity|].
  rewrite all_plain_app, digits_plain. reflexivity.
Qed.

Lemma test_message_flat message_counter now :
  exists fields,
    Ingestor.test_message message_counter now = JObj fields /\
    fields <> [] /\ flat_fields fields /\ dict_of [] fields = fields.
Proof.
  eexists. split; [reflexivity|]. split; [discriminate|]. split; [|reflexivity].
  repeat constructor; cbn [fst snd flat_value]; try reflexivity.
  - rewrite all_plain_app, format_03d_plain. reflexivity.
  - apply isoformat_plain.
Qed.

Lemma utf8_valid_ascii s : Json.all_ascii s = true -> Json.utf8_valid s = true.
Proof.
  induction s as [|c s IH]; [reflexivity|].
  cbn [Json.all_ascii]. intros H. apply andb_prop in H as [Hc Hs].
  unfold Json.utf8_valid; fold Json.utf8_valid. cbv zeta.
  rewrite Hc. exact (IH Hs).
Qed.

Lemma quote_ascii s : Json.all_plain s = true -> Json.all_ascii (Json.quote s) = true.
Proof.
  intros Hs. unfold Json.quote. rewrite (escape_plain s Hs).
  cbn [Json.all_ascii]. rewrite all_ascii_app, (all_plain_ascii s Hs). reflexivity.
Qed.

Lemma dumps_flat_ascii v : flat_value v -> Json.all_ascii (Json.dumps v) = true.
Proof.
  destruct v; try contradiction; intros Hv.
  - apply all_plain_ascii, str_of_int_plain.
  - apply quote_ascii, Hv.
Qed.

Lemma dumps_pairs_ascii fields :
  flat_fields fields -> Json.all_ascii (Json.dumps_pairs Json.dumps fields) = true.
Proof.
  induction 1 as [|[k x] l [Hk Hx] Hl IH]; [reflexivity|].
  rewrite dumps_pairs_cons, !all_ascii_app.
  rewrite (quote_ascii k Hk), (dumps_flat_ascii x Hx).
  destruct l; [reflexivity|].
  rewrite all_ascii_app, IH. reflexivity.
Qed.

Lemma dumps_object_utf8 fields :
  flat_fields fields -> Json.utf8_valid (Json.dumps (JObj fields)) = true.
Proof.
  intros Hf. apply utf8_valid_ascii. rewrite dumps_object, !all_ascii_app.
  rewrite (dumps_pairs_ascii fields Hf). reflexivity.
Qed.

(** What the ingestor builds has the wire format, provided the clock shows
    a well-formed instant. *)
Lemma test_message_wire_format message_counter now :
  datetime_ok now = true ->
  wire_format (Json.dumps (Ingestor.test_message message_counter now)).
Proof.
  intros Hnow.
  destruct (test_message_flat message_counter now) as (fields & Heq & Hne & Hflat & Hd).
  split.
  - rewrite Heq. apply dumps_object_utf8, Hflat.
  - eexists _, _, _, _, _, _. split.
    + rewrite Heq at 1. rewrite (loads_dumps_flat fields Hne Hflat), Hd, <- Heq.
      reflexivity.
    + apply isoformat_iso8601, Hnow.
Qed.

(** C9.  When the clock shows well-formed instants, the body of every
    message that the ingestor publishes is the serialisation of its
    placeholder message, and that text is UTF-8 and is read back by
    [json.loads] as an object with exactly the fields [game_id],
    [timestamp], [home_team], [away_team], [status], all strings, the
    timestamp an ISO-8601 instant, and [message_number], an integer. *)
Theorem published_messages_have_wire_format
    (environ : Environ) (fuel : nat) (E : Env) (h : list event)
    (clock_ok : forall h', datetime_ok (utcnow E h') = true)
    (exchange routing_key body : string) (delivery_mode : Z) :
  In (BasicPublish exchange routing_key body delivery_mode)
     (snd (Ingestor.main environ fuel E h)) ->
  wire_format body /\
  exists message_counter now,
    1 <= message_counter /\
    body = Json.dumps (Ingestor.test_message message_counter now).
Proof.
  intros Hin.
  pose proof (ingestor_main_emits environ fuel E h) as Hi.
  rewrite Forall_forall in Hi.
  destruct (Hi _ Hin) as [Hl|(_ & _ & _ & c & h0 & Hc & ->)]; [discriminate|].
  split; [apply test_message_wire_format, clock_ok|].
  exists c, (utcnow E h0). split; [exact Hc | reflexivity].
Qed.

Lemma published_messages_have_wire_format_witness :
  wire_format (Json.dumps (Ingestor.test_message 2 noon)) /\
  exists message_counter now,
    1 <= message_counter /\
    Json.dumps (Ingestor.test_message 2 noon)
    = Json.dumps (Ingestor.test_message message_counter now).
Proof.
  apply (published_messages_have_wire_format default_environ 2 quiet []
           (fun _ => eq_refl) "" "game_events"
           (Json.dumps (Ingestor.test_message 2 noon)) 2).
  vm_compute. do 11 right. left. reflexivity.
Defined.


(** * Further properties *)

(** ** The consumer callback, whatever the body *)

(** X1.  The result of [process_message] is the outcome of the last call it
    makes, and that call settles the delivery: nothing in the body of a
    message can make the callback raise. *)
Theorem process_message_raises_only_from_settling
    (ch : Channel) (tag : N) (body : string) (E : Env) (h : list event) :
  exists es0 settle,
    snd (Processor.process_message ch (Processor.mk_deliver tag) tt body E h)
    = es0 ++ [settle] /\
    settles tag settle = true /\
    fst (Processor.process_message ch (Processor.mk_deliver tag) tt body E h)
    = match raises E (h ++ es0) settle with
      | None => Ok tt
      | Some e => Raise e
      end.
Proof.
  unfold Processor.process_message, try_except, bind, Processor.decode_utf8,
    Processor.json_loads, Processor.message_get, raise, call, logger_error,
    logger_info, ret, datetime_utcnow.
  assert (Hs : settles tag (BasicNack tag false) = true) by (cbn; apply N.eqb_refl).
  assert (Ha : settles tag (BasicAck tag) = true) by (cbn; apply N.eqb_refl).
  destruct (Json.utf8_valid body); cbn.
  2:{ unfold Py.is_JSONDecodeError, Py.is_Exception; cbn.
      eexists [_], _. rewrite ?app_nil_r, <- ?app_assoc. cbn [app fst snd].
      split; [reflexivity|]. split; [exact Hs|]. reflexivity. }
  destruct (Json.loads body) as [v|]; cbn.
  2:{ unfold Py.is_JSONDecodeError, Py.is_Exception; cbn.
      eexists [_], _. rewrite ?app_nil_r, <- ?app_assoc. cbn [app fst snd].
      split; [reflexivity|]. split; [exact Hs|]. reflexivity. }
  destruct v; cbn;
    try (unfold Py.is_JSONDecodeError, Py.is_Exception; cbn;
         eexists [_; _], _; rewrite ?app_nil_r, <- ?app_assoc; cbn [app fst snd];
         split; [reflexivity|]; split; [exact Hs|]; reflexivity).
  destruct (Processor.eq_str (dict_get fields "status") "placeholder_data"); cbn;
    rewrite ?app_nil_r, <- ?app_assoc; cbn [app];
    match goal with
    | |- context [raises E (h ++ ?l) (BasicAck tag)] =>
        destruct (raises E (h ++ l) (BasicAck tag)) as [e|] eqn:Hack
    end.
  all: try (destruct (Py.is_JSONDecodeError e); [|destruct (Py.is_Exception e)]).
  all: cbn; rewrite ?app_nil_r, <- ?app_assoc; cbn [app].
  all: first
    [ eexists [_], _; split; [reflexivity|]
    | eexists [_; _], _; split; [reflexivity|]
    | eexists [_; _; _], _; split; [reflexivity|]
    | eexists [_; _; _; _], _; split; [reflexivity|] ].
  all: (split; [assumption|]); rewrite ?Hack; reflexivity.
Qed.

(** ** From the ingestor to the processor *)

Lemma test_message_decodes message_counter now :
  Json.utf8_valid (Json.dumps (Ingestor.test_message message_counter now)) = true /\
  Json.loads (Json.dumps (Ingestor.test_message message_counter now))
  = Some (Ingestor.test_message message_counter now).
Proof.
  destruct (test_message_flat message_counter now) as (fields & Heq & Hne & Hflat & Hd).
  rewrite Heq. split; [apply dumps_object_utf8, Hflat|].
  rewrite (loads_dumps_flat fields Hne Hflat), Hd. reflexivity.
Qed.

(** X2.  Whatever the counter and the clock, the processor acknowledges the
    message that the ingestor builds, after logging it and logging a
    processing result that carries the message's own [game_id]. *)
Theorem processor_acknowledges_ingestor_messages
    (ch : Channel) (tag : N) (message_counter : Z) (now : datetime)
    (E : Env) (h : list event) :
  let body := Json.dumps (Ingestor.test_message message_counter now) in
  let received := LogInfo ("Message received: " +:+ body) in
  let completed :=
    LogInfo
      ("Processing completed: " +:+
       Json.dumps
         (JObj [ ("processed_at",
                  JStr (isoformat (utcnow E (h ++ [received])) +:+ "Z"));
                 ("original_game_id",
                  JStr ("test_" +:+ format_03d message_counter));
                 ("processing_status", JStr "success");
                 ("notes", JStr "Placeholder processing completed") ])) in
  exists rest,
    snd (Processor.process_message ch (Processor.mk_deliver tag) tt body E h)
    = received :: completed :: BasicAck tag :: rest.
Proof.
  cbv zeta.
  destruct (test_message_decodes message_counter now) as [Hu Hl].
  unfold Processor.process_message, try_except, bind, Processor.decode_utf8,
    Processor.json_loads, raise, call, logger_error, logger_info, ret,
    datetime_utcnow.
  rewrite Hu. cbn. rewrite Hl. cbn.
  rewrite ?app_nil_r, <- ?app_assoc; cbn [app].
  match goal with
  | |- context [raises E ?l (BasicAck tag)] =>
      destruct (raises E l (BasicAck tag)) as [e|]
  end.
  2:{ eexists. reflexivity. }
  destruct (Py.is_JSONDecodeError e); [|destruct (Py.is_Exception e)];
    cbn; eexists; reflexivity.
Qed.

(** ** The numbering of the messages *)

Lemma publish_calls_app es es' :
  publish_calls (es ++ es') = publish_calls es ++ publish_calls es'.
Proof.
  induction es as [|ev es IH]; [reflexivity|].
  destruct ev; cbn; rewrite ?IH; reflexivity.
Qed.

Lemma publish_calls_none es :
  Forall (fun ev => is_publish ev = false) es -> publish_calls es = [].
Proof.
  induction 1 as [|ev es Hev _ IH]; [reflexivity|].
  destruct ev; try discriminate; exact IH.
Qed.

Lemma publish_loop_messages E channel queue_name interval fuel :
  forall message_counter h,
  exists nows,
    publish_calls
      (snd (Ingestor.publish_loop fuel channel queue_name interval message_counter E h))
    = messages_from message_counter nows.
Proof.
  induction fuel as [|fuel IH]; intros c h; [exists []; reflexivity|].
  cbn [Ingestor.publish_loop]. unfold bind at 1. unfold datetime_utcnow at 1.
  rewrite app_nil_r. cbn [app].
  unfold bind at 1. rewrite publish_message_eq. cbv zeta.
  destruct (raises E h _) as [e|].
  { exists []. destruct (Py.is_Exception e); reflexivity. }
  destruct (raises E (h ++ _) _) as [e|].
  { exists [utcnow E h]. destruct (Py.is_Exception e); reflexivity. }
  unfold bind at 1. unfold time_sleep.
  destruct (interval <? 0).
  { exists [utcnow E h]. reflexivity. }
  unfold call at 1.
  destruct (raises E _ (Sleep interval)) as [e|].
  { exists [utcnow E h]. reflexivity. }
  match goal with
  | |- context [Ingestor.publish_loop fuel channel queue_name interval (c + 1) E ?h'] =>
      destruct (IH (c + 1) h') as [nows Hn];
      destruct (Ingestor.publish_loop fuel channel queue_name interval (c + 1) E h')
        as [r es]
  end.
  exists (utcnow E h :: nows). cbn [snd] in *. cbn [app publish_calls messages_from].
  rewrite Hn. reflexivity.
Qed.

Lemma guarded_loop_messages E fuel channel queue_name interval h :
  exists nows,
    publish_calls (snd (Ingestor.guarded_loop fuel channel queue_name interval E h))
    = messages_from 1 nows.
Proof.
  unfold Ingestor.guarded_loop, try_except. unfold bind at 1. unfold logger_info at 1.
  match goal with
  | |- context [Ingestor.publish_loop fuel channel queue_name interval 1 E ?h'] =>
      destruct (publish_loop_messages E channel queue_name interval fuel 1 h')
        as [nows Hn];
      destruct (Ingestor.publish_loop fuel channel queue_name interval 1 E h')
        as [r es]
  end.
  exists nows. cbn [snd] in Hn.
  destruct r as [[]|e|]; cbn; try exact Hn.
  destruct (Py.is_KeyboardInterrupt e); [|destruct (Py.is_Exception e)];
    cbn; rewrite ?publish_calls_app, ?Hn; cbn; rewrite ?app_nil_r; reflexivity.
Qed.

Lemma main_messages environ fuel E h :
  exists nows,
    publish_calls (snd (Ingestor.main environ fuel E h)) = messages_from 1 nows.
Proof.
  unfold Ingestor.main. unfold bind at 1. unfold logger_info at 1.
  unfold bind at 1. unfold create_rabbitmq_connection.
  pose proof (connect_loop_emits environ E fuel 1
                (h ++ [LogInfo "NFL Ingestor service starting up"])) as Hc.
  destruct (connect_loop environ fuel 1 E _) as [[c| e |] esc]; cbn [snd] in Hc.
  2,3: exists []; cbn; apply publish_calls_none;
       eapply Forall_impl; [|exact Hc]; intros [] Hev; try discriminate; reflexivity.
  assert (Hpc : publish_calls esc = []).
  { apply publish_calls_none. eapply Forall_impl; [|exact Hc].
    intros [] Hev; try discriminate; reflexivity. }
  unfold bind at 1. unfold call at 1.
  destruct (raises E _ (OpenChannel c)) as [e|].
  { exists []. cbn. rewrite publish_calls_app, Hpc. reflexivity. }
  unfold try_finally.
  match goal with
  | |- context [Ingestor.guarded_loop fuel c ?q ?i E ?h'] =>
      destruct (guarded_loop_messages E fuel c q i h') as [nows Hn];
      destruct (Ingestor.guarded_loop fuel c q i E h') as [r es] eqn:Hg
  end.
  exists nows. cbn [snd] in Hn.
  destruct r as [[]|e|]; rewrite ?ingestor_shutdown_eq; cbn [snd app publish_calls];
    rewrite ?publish_calls_app, ?Hpc, ?Hn; cbn [app publish_calls];
    rewrite ?publish_calls_app, ?Hn;
    try (destruct (raises E _ (Close c))); cbn; rewrite ?app_nil_r; reflexivity.
Qed.

Lemma messages_from_numbers nows :
  forall message_counter,
    map message_number_of (messages_from message_counter nows)
    = map Some (count_from message_counter (List.length nows)).
Proof.
  induction nows as [|now nows IH]; intros c; [reflexivity|].
  cbn [messages_from map List.length count_from]. rewrite IH. f_equal.
  unfold message_number_of.
  rewrite (proj2 (test_message_decodes c now)). reflexivity.
Qed.

(** X3.  The [message_number] fields of the messages of a run, as a consumer
    decodes them, are 1, 2, 3, ... in the order of the [basic_publish]
    calls: no number is skipped and none comes twice. *)
Theorem messages_are_numbered_from_one
    (environ : Environ) (fuel : nat) (E : Env) (h : list event) :
  exists n,
    map message_number_of (publish_calls (snd (Ingestor.main environ fuel E h)))
    = map Some (count_from 1 n).
Proof.
  destruct (main_messages environ fuel E h) as [nows Hn].
  exists (List.length nows). rewrite Hn. apply messages_from_numbers.
Qed.

Example three_messages_numbered :
  map message_number_of
    (publish_calls (snd (Ingestor.main default_environ 3 quiet [])))
  = [Some 1; Some 2; Some 3].
Proof. vm_compute. reflexivity. Qed.

(** ** The game identifier *)

Lemma zeros_string_of_uint k d :
  zeros k +:+ NilEmpty.string_of_uint d
  = NilEmpty.string_of_uint (Nat.iter k Decimal.D0 d).
Proof.
  induction k as [|k IH]; [reflexivity|].
  cbn [zeros Nat.iter]. rewrite append_String, IH. reflexivity.
Qed.

Lemma iter_D0_nonnil k d : d <> Decimal.Nil -> Nat.iter k Decimal.D0 d <> Decimal.Nil.
Proof. destruct k; [trivial | discriminate]. Qed.

Lemma of_uint_iter_D0 k d : Pos.of_uint (Nat.iter k Decimal.D0 d) = Pos.of_uint d.
Proof. induction k as [|k IH]; [reflexivity | exact IH]. Qed.

(** The decimal digits of a natural number, as [str] prints them. *)
Lemma str_of_int_nonneg n :
  0 <= n ->
  exists d, d <> Decimal.Nil /\ Py.str_of_int n = NilEmpty.string_of_uint d
            /\ Z.of_N (Pos.of_uint d) = n.
Proof.
  intros Hn. unfold Py.str_of_int. destruct n as [|p|p]; [| |lia].
  - exists (Decimal.D0 Decimal.Nil). repeat split. discriminate.
  - exists (Pos.to_uint p). cbn [Z.to_int NilZero.string_of_int].
    pose proof (DecimalPos.Unsigned.to_uint_nonnil p) as Hnn.
    split; [exact Hnn|]. split.
    + destruct (Pos.to_uint p); congruence || reflexivity.
    + rewrite DecimalPos.Unsigned.of_to. reflexivity.
Qed.

Lemma zeros_length k : String.length (zeros k) = k.
Proof. induction k as [|k IH]; [reflexivity | cbn; rewrite IH; reflexivity]. Qed.

Lemma short_below_thousand :
  forallb (fun k => (String.length (Py.str_of_int (Z.of_nat k)) <=? 3)%nat)
    (seq 0 1000) = true.
Proof. vm_compute. reflexivity. Qed.

(** X4.  [f"{n:03d}"] reads back as [n], has at least three characters, and
    exactly three from 0 to 999. *)
Theorem format_03d_reads_back (n : Z) :
  option_map Z.of_int (NilZero.int_of_string (format_03d n)) = Some n /\
  (3 <= String.length (format_03d n))%nat /\
  (0 <= n <= 999 -> String.length (format_03d n) = 3%nat).
Proof.
  unfold format_03d.
  destruct (str_of_int_nonneg (Z.abs n) (Z.abs_nonneg n)) as (d & Hd & Hs & Hv).
  rewrite Hs. destruct (Z.ltb_spec n 0) as [Hneg|Hpos].
  - rewrite append_String, append_Empty, zeros_string_of_uint.
    rewrite int_of_string_neg_uint by (apply iter_D0_nonnil, Hd).
    cbn [option_map Z.of_int]. unfold Z.of_uint.
    rewrite of_uint_iter_D0, Hv. split; [f_equal; lia|].
    split; [|lia].
    rewrite <- zeros_string_of_uint. cbn [String.length].
    rewrite length_append, zeros_length. lia.
  - rewrite zeros_string_of_uint.
    rewrite int_of_string_uint by (apply iter_D0_nonnil, Hd).
    cbn [option_map Z.of_int]. unfold Z.of_uint.
    rewrite of_uint_iter_D0, Hv. split; [f_equal; lia|].
    rewrite <- zeros_string_of_uint, length_append, zeros_length.
    split; [lia|]. intros Hn.
    pose proof short_below_thousand as Hall. rewrite forallb_forall in Hall.
    specialize (Hall (Z.to_nat n)). rewrite Z2Nat.id in Hall by lia.
    rewrite Z.abs_eq in Hs by lia. rewrite Hs in Hall.
    assert (Hin : In (Z.to_nat n) (seq 0 1000)) by (apply in_seq; lia).
    apply Hall, Nat.leb_le in Hin. lia.
Qed.

Lemma format_03d_reads_back_witness :
  option_map Z.of_int (NilZero.int_of_string (format_03d 7)) = Some 7 /\
  (3 <= String.length (format_03d 7))%nat /\
  String.length (format_03d 7) = 3%nat.
Proof.
  destruct (format_03d_reads_back 7) as (H1 & H2 & H3).
  split; [exact H1|]. split; [exact H2|]. apply H3. lia.
Defined.

Example game_ids :
  format_03d 7 = "007" /\ format_03d 42 = "042" /\ format_03d 999 = "999"
  /\ format_03d 1000 = "1000" /\ format_03d (-5) = "-05".
Proof. repeat split; vm_compute; reflexivity. Qed.

(** ** The ways out of the ingestor *)

Lemma count_none f es :
  Forall (fun ev => f ev = false) es -> count f es = 0%nat.
Proof.
  unfold count. induction 1 as [|ev es Hev _ IH]; [reflexivity|].
  cbn. rewrite Hev. exact IH.
Qed.

Lemma count_cons f ev es :
  count f (ev :: es) = ((if f ev then 1 else 0) + count f es)%nat.
Proof. unfold count. cbn. destruct (f ev); reflexivity. Qed.

Lemma ingestor_event_not_close E queue_name es :
  Forall (ingestor_event E queue_name) es -> count is_close es = 0%nat.
Proof.
  intros H. apply count_none. eapply Forall_impl; [|exact H].
  intros [] Hev; try contradiction; reflexivity.
Qed.

Lemma housekeeping_not_close es :
  Forall (fun ev => is_housekeeping ev = true) es -> count is_close es = 0%nat.
Proof.
  intros H. apply count_none. eapply Forall_impl; [|exact H].
  intros [] Hev; try discriminate; reflexivity.
Qed.

Lemma logs_not_close es :
  Forall (fun ev => is_log_info ev = true) es -> count is_close es = 0%nat.
Proof.
  intros H. apply count_none. eapply Forall_impl; [|exact H].
  intros [] Hev; try discriminate; reflexivity.
Qed.

(** The [try] block of the ingestor lets through neither CTRL+C nor an
    [Exception]. *)
Lemma ingestor_guarded_loop_result E fuel channel queue_name interval h e :
  fst (Ingestor.guarded_loop fuel channel queue_name interval E h) = Raise e ->
  Py.is_KeyboardInterrupt e = false /\ Py.is_Exception e = false.
Proof.
  unfold Ingestor.guarded_loop, try_except. unfold bind at 1. unfold logger_info at 1.
  destruct (Ingestor.publish_loop _ _ _ _ _ _ _) as [[[]|e'|] es]; cbn;
    try discriminate.
  destruct (Py.is_KeyboardInterrupt e') eqn:Hk; [cbn; discriminate|].
  destruct (Py.is_Exception e') eqn:Hx; [cbn; discriminate|].
  cbn. intros [= <-]. split; assumption.
Qed.

Lemma ingestor_guarded_exit E fuel c queue_name interval h :
  let run :=
    try_finally (Ingestor.guarded_loop fuel c queue_name interval)
      (Ingestor.shutdown c) E h in
  match fst run with
  | Ok _ => count is_close (snd run) = 1%nat
  | Running => count is_close (snd run) = 0%nat
  | Raise e =>
      count is_close (snd run) = 1%nat /\
      Py.is_KeyboardInterrupt e = false /\ Py.is_Exception e = false
  end.
Proof.
  cbv zeta. unfold try_finally.
  pose proof (ingestor_guarded_loop_emits E fuel c queue_name interval h) as Hl.
  pose proof (ingestor_guarded_loop_result E fuel c queue_name interval h) as Hr.
  destruct (Ingestor.guarded_loop fuel c queue_name interval E h) as [rb esb].
  cbn [fst snd] in *. apply ingestor_event_not_close in Hl.
  rewrite ingestor_shutdown_eq.
  destruct rb as [[]|e|]; cbn [fst snd]; rewrite ?count_app, ?Hl;
    try (destruct (raises E (h ++ esb) (Close c)); cbn; auto).
Qed.

(** X5.  [main] of the ingestor never closes the connection twice; when it
    returns, it has closed it exactly once; while it runs, it has not closed
    it; and when it raises, either nothing was closed (the failure came
    before the [try] block) or the connection was closed and the exception is
    neither CTRL+C nor an [Exception]: the loop swallows both. *)
Theorem ingestor_main_exits
    (environ : Environ) (fuel : nat) (E : Env) (h : list event) :
  let run := Ingestor.main environ fuel E h in
  match fst run with
  | Ok _ => count is_close (snd run) = 1%nat
  | Running => count is_close (snd run) = 0%nat
  | Raise e =>
      count is_close (snd run) = 0%nat \/
      (count is_close (snd run) = 1%nat /\
       Py.is_KeyboardInterrupt e = false /\ Py.is_Exception e = false)
  end.
Proof.
  cbv zeta.
  destruct (Ingestor.main environ fuel E h) as [r es] eqn:Hm. revert Hm.
  unfold Ingestor.main. unfold bind at 1. unfold logger_info at 1.
  unfold bind at 1. unfold create_rabbitmq_connection.
  pose proof (connect_loop_emits environ E fuel 1
                (h ++ [LogInfo "NFL Ingestor service starting up"])) as Hc.
  destruct (connect_loop environ fuel 1 E _) as [[c| e |] esc]; cbn [snd] in Hc;
    apply housekeeping_not_close in Hc.
  2:{ intros [= <- <-]. cbn [fst snd app]. left.
      rewrite count_cons, Hc. reflexivity. }
  2:{ intros [= <- <-]. cbn [fst snd app].
      rewrite count_cons, Hc. reflexivity. }
  unfold bind at 1. unfold call at 1.
  destruct (raises E _ (OpenChannel c)) as [e|].
  { intros [= <- <-]. cbn [fst snd app]. left.
    rewrite count_cons, count_app, Hc. reflexivity. }
  match goal with
  | |- context [try_finally (Ingestor.guarded_loop fuel c ?q ?i) _ E ?h'] =>
      pose proof (ingestor_guarded_exit E fuel c q i h') as Hg;
      destruct (try_finally (Ingestor.guarded_loop fuel c q i)
                  (Ingestor.shutdown c) E h') as [r' es']
  end.
  cbv zeta in Hg. cbn [fst snd] in Hg.
  destruct r' as [[]|e|]; intros [= <- <-]; cbn [fst snd app];
    rewrite count_cons, count_app, Hc, count_cons; cbn.
  - exact Hg.
  - right. exact Hg.
  - exact Hg.
Qed.

(** ** The ways out of the processor *)

Lemma processor_event_not_close queue_name es :
  Forall (processor_event queue_name) es -> count is_close es = 0%nat.
Proof.
  intros H. apply count_none. eapply Forall_impl; [|exact H].
  intros [] Hev; try contradiction; reflexivity.
Qed.

(** What the [try] block of the processor lets through is neither CTRL+C nor
    an [Exception], unless it is what [stop_consuming] raised in the CTRL+C
    handler, as the last call of the block. *)
Lemma processor_guarded_consume_result E fuel channel queue_name h e :
  fst (Processor.guarded_consume fuel channel queue_name E h) = Raise e ->
  (Py.is_KeyboardInterrupt e = false /\ Py.is_Exception e = false) \/
  exists es0,
    snd (Processor.guarded_consume fuel channel queue_name E h)
      = es0 ++ [StopConsuming] /\
    raises E (h ++ es0) StopConsuming = Some e.
Proof.
  unfold Processor.guarded_consume, try_except.
  match goal with
  | |- context [match ?body E h with _ => _ end] =>
      destruct (body E h) as [[[]|e'|] es]
  end; cbn [fst snd]; try discriminate.
  destruct (Py.is_KeyboardInterrupt e') eqn:Hk.
  - unfold bind, logger_info, call. cbn [fst snd].
    destruct (raises E _ StopConsuming) as [e2|] eqn:Hs; cbn [fst snd];
      [|discriminate].
    intros [= <-]. right.
    exists (es ++ [LogInfo "Received shutdown signal, stopping service"]).
    split; [rewrite <- app_assoc; reflexivity|].
    rewrite app_assoc. exact Hs.
  - destruct (Py.is_Exception e') eqn:Hx; [cbn; discriminate|].
    cbn. intros [= <-]. left. split; assumption.
Qed.

(** X6.  [main] of the processor never closes the connection twice; when it
    returns, it has closed it exactly once; while it consumes, it has not
    closed it; and when it raises, either nothing was closed (the failure
    came before the [try] block) or the connection was closed once and the
    exception is what [stop_consuming] raised after CTRL+C, or is neither
    CTRL+C nor an [Exception]. *)
Theorem processor_main_exits
    (environ : Environ) (fuel : nat) (E : Env) (h : list event) :
  let run := Processor.main environ fuel E h in
  match fst run with
  | Ok _ => count is_close (snd run) = 1%nat
  | Running => count is_close (snd run) = 0%nat
  | Raise e =>
      count is_close (snd run) = 0%nat \/
      (count is_close (snd run) = 1%nat /\
       ((Py.is_KeyboardInterrupt e = false /\ Py.is_Exception e = false) \/
        exists h', raises E h' StopConsuming = Some e))
  end.
Proof.
  cbv zeta.
  destruct (Processor.main environ fuel E h) as [r es] eqn:Hm. revert Hm.
  unfold Processor.main. unfold bind at 1. unfold logger_info at 1.
  unfold bind at 1. unfold create_rabbitmq_connection.
  pose proof (connect_loop_emits environ E fuel 1
                (h ++ [LogInfo "NFL Processor service starting up"])) as Hc.
  destruct (connect_loop environ fuel 1 E _) as [[c| e |] esc]; cbn [snd] in Hc;
    apply housekeeping_not_close in Hc.
  2:{ intros [= <- <-]. cbn [fst snd app]. left.
      rewrite count_cons, Hc. reflexivity. }
  2:{ intros [= <- <-]. cbn [fst snd app].
      rewrite count_cons, Hc. reflexivity. }
  unfold bind at 1. unfold call at 1.
  destruct (raises E _ (OpenChannel c)) as [e|].
  { intros [= <- <-]. cbn [fst snd app]. left.
    rewrite count_cons, count_app, Hc. reflexivity. }
  unfold try_finally.
  match goal with
  | |- context [Processor.guarded_consume fuel c ?q E ?h'] =>
      pose proof (processor_guarded_consume_emits E fuel c q h') as Hl;
      pose proof (processor_guarded_consume_result E fuel c q h') as Hr;
      destruct (Processor.guarded_consume fuel c q E h') as [rb esb]
  end.
  cbn [fst snd] in Hl, Hr. apply processor_event_not_close in Hl.
  rewrite processor_shutdown_eq.
  destruct rb as [[]|e|]; intros [= <- <-]; cbn [fst snd app];
    rewrite count_cons, count_app, Hc, count_cons, ?count_app, ?Hl, ?count_cons;
    cbn [is_close Nat.add].
  - destruct (raises E _ (Close c)); reflexivity.
  - right. split; [destruct (raises E _ (Close c)); reflexivity|].
    destruct (Hr e eq_refl) as [Hne|[es0 [_ Hs]]]; [left; exact Hne|].
    right. eexists. exact Hs.
  - reflexivity.
Qed.

(** ** When the connection manager gives up *)





(** ** A run without failures *)

Section Undisturbed.

Variable E : Env.
Hypothesis calls_return : forall h ev, raises E h ev = None.

Lemma connect_loop_first_attempt environ fuel d h :
  let p := connection_parameters environ in
  let attempting :=
    LogInfo ("Attempting to connect to RabbitMQ at " +:+ host p +:+ ":"
             +:+ Py.str_of_int (port p)) in
  connect_loop environ (S fuel) d E h =
  (Ok (List.length (h ++ [attempting])),
   [attempting; Connect p; LogInfo "Successfully connected to RabbitMQ"]).
Proof.
  cbv zeta. cbn [connect_loop].
  unfold bind, connect_attempt, try_except, bind, BlockingConnection, call,
    logger_info, ret.
  cbn. rewrite calls_return. reflexivity.
Qed.

Lemma publish_loop_undisturbed channel queue_name interval fuel :
  0 <= interval ->
  forall message_counter h,
    let run :=
      Ingestor.publish_loop fuel channel queue_name interval message_counter E h in
    fst run = Running /\
    sleep_delays (snd run) = repeat interval fuel /\
    exists nows,
      List.length nows = fuel /\
      publish_calls (snd run) = messages_from message_counter nows.
Proof.
  intros Hi. cbv zeta.
  induction fuel as [|fuel IH]; intros c h.
  { split; [reflexivity|]. split; [reflexivity|]. exists []. split; reflexivity. }
  destruct (Ingestor.publish_loop (S fuel) channel queue_name interval c E h)
    as [r0 es0] eqn:Hm. revert Hm.
  cbn [Ingestor.publish_loop]. unfold bind at 1. unfold datetime_utcnow at 1.
  rewrite app_nil_r. cbn [app].
  unfold bind at 1. rewrite publish_message_eq. cbv zeta.
  rewrite !calls_return.
  unfold bind at 1. unfold time_sleep.
  destruct (interval <? 0) eqn:Hneg; [lia|].
  unfold call at 1. rewrite calls_return.
  match goal with
  | |- context [Ingestor.publish_loop fuel channel queue_name interval (c + 1) E ?h'] =>
      destruct (IH (c + 1) h') as [Hr [Hs [nows [Hl Hn]]]];
      destruct (Ingestor.publish_loop fuel channel queue_name interval (c + 1) E h')
        as [r es]
  end.
  cbn [fst snd] in *. subst r. intros [= <- <-]. split; [reflexivity|].
  cbn [app sleep_delays publish_calls repeat]. rewrite Hs. split; [reflexivity|].
  exists (utcnow E h :: nows). cbn [List.length messages_from].
  rewrite Hl, Hn. split; reflexivity.
Qed.

Lemma ingestor_main_undisturbed environ fuel h :
  0 <= getenv (INGESTOR_INTERVAL environ) 10 ->
  let run := Ingestor.main environ fuel E h in
  fst run = Running /\
  map message_number_of (publish_calls (snd run)) = map Some (count_from 1 fuel) /\
  sleep_delays (snd run) = repeat (getenv (INGESTOR_INTERVAL environ) 10) fuel.
Proof.
  intros Hi. cbv zeta. destruct fuel as [|fuel].
  { split; [reflexivity|]. split; reflexivity. }
  destruct (Ingestor.main environ (S fuel) E h) as [r es] eqn:Hm. revert Hm.
  unfold Ingestor.main. unfold bind at 1. unfold logger_info at 1.
  unfold bind at 1. unfold create_rabbitmq_connection.
  rewrite connect_loop_first_attempt.
  unfold bind at 1. unfold call at 1. rewrite calls_return.
  unfold try_finally, Ingestor.guarded_loop, try_except.
  unfold bind at 1. unfold logger_info at 1.
  match goal with
  | |- context [Ingestor.publish_loop (S fuel) ?c ?q ?i 1 E ?h'] =>
      destruct (publish_loop_undisturbed c q i (S fuel) Hi 1 h')
        as [Hr [Hs [nows [Hl Hn]]]];
      destruct (Ingestor.publish_loop (S fuel) c q i 1 E h') as [r' es']
  end.
  cbn [fst snd] in Hr, Hs, Hn. subst r'.
  intros [= <- <-]. cbn [fst snd]. split; [reflexivity|].
  cbn [app publish_calls sleep_delays].
  rewrite Hn, Hs, messages_from_numbers, Hl. split; reflexivity.
Qed.

End Undisturbed.

(** X8.  When every call returns and the interval is not negative, the ingestor
    never stops by itself: after any number of turns of its loop it is still
    running, it has published one message per turn, numbered 1, 2, ... in
    this order, and it has slept the configured interval after each. *)
Theorem ingestor_publishes_every_interval
    (environ : Environ) (fuel : nat) (E : Env) (h : list event) :
  (forall h' ev, raises E h' ev = None) ->
  0 <= getenv (INGESTOR_INTERVAL environ) 10 ->
  let run := Ingestor.main environ fuel E h in
  fst run = Running /\
  map message_number_of (publish_calls (snd run)) = map Some (count_from 1 fuel) /\
  sleep_delays (snd run) = repeat (getenv (INGESTOR_INTERVAL environ) 10) fuel.
Proof. intros Hret Hi. apply ingestor_main_undisturbed; assumption. Qed.

Lemma ingestor_publishes_every_interval_witness :
  let run := Ingestor.main default_environ 4 quiet [] in
  fst run = Running /\
  map message_number_of (publish_calls (snd run)) = map Some (count_from 1 4) /\
  sleep_delays (snd run) = repeat (getenv (INGESTOR_INTERVAL default_environ) 10) 4.
Proof.
  apply (ingestor_publishes_every_interval default_environ 4 quiet []).
  - intros h' ev. reflexivity.
  - cbn. lia.
Defined.

(** ** A negative interval *)

Lemma ingestor_main_negative_interval E environ fuel h :
  (forall h' ev, raises E h' ev = None) ->
  getenv (INGESTOR_INTERVAL environ) 10 < 0 ->
  exists before c,
    Forall (fun ev => is_publish ev = false) before /\
    sleep_delays before = [] /\
    count is_close before = 0%nat /\
    Ingestor.main environ (S fuel) E h =
    (Ok tt,
     before ++
     [BasicPublish "" (getenv (RABBITMQ_QUEUE environ) "game_events")
        (Json.dumps (Ingestor.test_message 1 (utcnow E (h ++ firstn 6 before)))) 2;
      LogInfo ("Message published to queue '"
               +:+ getenv (RABBITMQ_QUEUE environ) "game_events" +:+ "': "
               +:+ Json.dumps
                     (Ingestor.test_message 1 (utcnow E (h ++ firstn 6 before))));
      LogError "Unexpected error in main loop: sleep length must be non-negative";
      Close c;
      LogInfo "RabbitMQ connection closed";
      LogInfo "NFL Ingestor service shutdown complete"]).
Proof.
  intros calls_return Hi.
  unfold Ingestor.main. unfold bind at 1. unfold logger_info at 1.
  unfold bind at 1. unfold create_rabbitmq_connection.
  rewrite (connect_loop_first_attempt E calls_return).
  unfold bind at 1. unfold call at 1. rewrite calls_return.
  unfold try_finally, Ingestor.guarded_loop, try_except.
  unfold bind at 1. unfold logger_info at 1.
  cbn [Ingestor.publish_loop]. unfold bind at 1. unfold datetime_utcnow at 1.
  rewrite app_nil_r. cbn [app].
  unfold bind at 1. rewrite publish_message_eq. cbv zeta.
  rewrite !calls_return.
  unfold bind at 1. unfold time_sleep.
  destruct (_ <? 0) eqn:Hneg; [|lia].
  unfold raise. cbn [fst snd app].
  unfold Py.is_KeyboardInterrupt, Py.is_Exception. cbn [Py.exn_cls].
  unfold logger_error. cbn [Py.str Py.exn_msg app].
  rewrite ingestor_shutdown_eq, calls_return.
  match goal with
  | |- context [OpenChannel ?c0] => set (c := c0)
  end.
  exists [LogInfo "NFL Ingestor service starting up";
          LogInfo ("Attempting to connect to RabbitMQ at "
                   +:+ host (connection_parameters environ) +:+ ":"
                   +:+ Py.str_of_int (port (connection_parameters environ)));
          Connect (connection_parameters environ);
          LogInfo "Successfully connected to RabbitMQ";
          OpenChannel c;
          LogInfo ("Starting message publishing loop (every "
                   +:+ Py.str_of_int (getenv (INGESTOR_INTERVAL environ) 10)
                   +:+ " seconds)");
          QueueDeclare (getenv (RABBITMQ_QUEUE environ) "game_events") true], c.
  split; [repeat constructor|]. split; [reflexivity|]. split; [reflexivity|].
  cbn [app firstn]. rewrite <- !app_assoc. reflexivity.
Qed.

(** X9.  With a negative [INGESTOR_INTERVAL] and a broker that accepts every call,
    the ingestor publishes message 1 and stops: [time.sleep] refuses the
    length, the error is logged as unexpected, the connection is closed and
    [main] returns; nothing was slept. *)
Theorem negative_interval_stops_after_first_message
    (environ : Environ) (fuel : nat) (E : Env) (h : list event) :
  (forall h' ev, raises E h' ev = None) ->
  getenv (INGESTOR_INTERVAL environ) 10 < 0 ->
  let run := Ingestor.main environ (S fuel) E h in
  fst run = Ok tt /\
  map message_number_of (publish_calls (snd run)) = [Some 1] /\
  sleep_delays (snd run) = [] /\
  count is_close (snd run) = 1%nat /\
  In (LogError "Unexpected error in main loop: sleep length must be non-negative")
     (snd run).
Proof.
  intros Hret Hi. cbv zeta.
  destruct (ingestor_main_negative_interval E environ fuel h Hret Hi)
    as [before [c [Hp [Hs [Hc ->]]]]].
  cbn [fst snd]. split; [reflexivity|].
  rewrite publish_calls_app, (publish_calls_none _ Hp), sleep_delays_app, Hs,
    count_app.
  cbn [app publish_calls sleep_delays map].
  split.
  { unfold message_number_of.
    rewrite (proj2 (test_message_decodes 1 _)). reflexivity. }
  split; [reflexivity|]. split.
  { rewrite Hc. reflexivity. }
  apply in_or_app. right. cbn. tauto.
Qed.

Lemma negative_interval_stops_after_first_message_witness :
  let environ := mk_environ None None None None None (Some (-5)) in
  let run := Ingestor.main environ 3 quiet [] in
  fst run = Ok tt /\
  map message_number_of (publish_calls (snd run)) = [Some 1] /\
  sleep_delays (snd run) = [] /\
  count is_close (snd run) = 1%nat /\
  In (LogError "Unexpected error in main loop: sleep length must be non-negative")
     (snd run).
Proof.
  apply (negative_interval_stops_after_first_message
           (mk_environ None None None None None (Some (-5))) 2 quiet []).
  - intros h' ev. reflexivity.
  - cbn. lia.
Defined.

(** ** The consumer loop *)

Lemma delivery_events_app es es' :
  delivery_events (es ++ es') = delivery_events es ++ delivery_events es'.
Proof.
  induction es as [|ev es IH]; [reflexivity|].
  destruct ev; cbn; rewrite ?IH; reflexivity.
Qed.

Section Settling.

Variable E : Env.
Hypothesis ack_returns : forall h tag, raises E h (BasicAck tag) = None.
Hypothesis nack_returns :
  forall h tag requeue, raises E h (BasicNack tag requeue) = None.

Lemma process_message_settles ch tag body h :
  exists logs,
    delivery_events logs = [] /\
    Processor.process_message ch (Processor.mk_deliver tag) tt body E h
    = (Ok tt, logs ++ [verdict tag body]).
Proof.
  unfold verdict, handled.
  unfold Processor.process_message, try_except, bind, Processor.decode_utf8,
    Processor.json_loads, Processor.message_get, raise, call, logger_error,
    logger_info, ret, datetime_utcnow.
  destruct (Json.utf8_valid body) eqn:Hu; cbn.
  2:{ unfold Py.is_JSONDecodeError, Py.is_Exception. cbn.
      rewrite nack_returns. eexists [_]. split; [|reflexivity]. reflexivity. }
  destruct (Json.loads body) as [v|] eqn:Hl; cbn.
  2:{ unfold Py.is_JSONDecodeError. cbn.
      rewrite nack_returns. eexists [_]. split; [|reflexivity]. reflexivity. }
  destruct v; cbn;
    try (unfold Py.is_JSONDecodeError, Py.is_Exception; cbn;
         rewrite nack_returns; eexists [_; _]; (split; [|reflexivity]); reflexivity).
  destruct (Processor.eq_str _ _); cbn; rewrite ack_returns.
  - eexists [_; _]. split; [|reflexivity]. reflexivity.
  - eexists [_]. split; [|reflexivity]. reflexivity.
Qed.

Lemma start_consuming_settles channel fuel :
  forall h,
    let run := Processor.start_consuming fuel channel E h in
    (exists deliveries,
       delivery_events (snd run)
       = flat_map (fun d => [Dispatch (fst d) (snd d); verdict (fst d) (snd d)])
           deliveries) /\
    (forall e, fst run = Raise e ->
       exists es0, snd run = es0 ++ [WaitDelivery] /\
                   raises E (h ++ es0) WaitDelivery = Some e).
Proof.
  cbv zeta. induction fuel as [|fuel IH]; intros h.
  { split; [exists []; reflexivity|discriminate]. }
  destruct (Processor.start_consuming (S fuel) channel E h) as [r es] eqn:Hm.
  revert Hm. cbn [Processor.start_consuming].
  unfold bind at 1. unfold call at 1.
  destruct (raises E h WaitDelivery) as [e0|] eqn:Hw.
  { intros [= <- <-]. cbn [fst snd]. split; [exists []; reflexivity|].
    intros e [= <-]. exists []. rewrite app_nil_r. split; [reflexivity|exact Hw]. }
  destruct (delivery E (h ++ [WaitDelivery])) as [[tag body]|].
  2:{ intros [= <- <-]. cbn [fst snd]. split; [exists []; reflexivity|discriminate]. }
  unfold bind at 1. unfold bind at 1.
  destruct (process_message_settles channel tag body
              ((h ++ [WaitDelivery]) ++ [Dispatch tag body])) as [logs [Hlogs ->]].
  match goal with
  | |- context [Processor.start_consuming fuel channel E ?h'] =>
      destruct (IH h') as [[ds Hds] Hraise];
      destruct (Processor.start_consuming fuel channel E h') as [r' es']
  end.
  cbn [fst snd] in *. intros [= <- <-]. split.
  - exists ((tag, body) :: ds). cbn [app delivery_events flat_map fst snd].
    rewrite !delivery_events_app, Hlogs, Hds. cbn [app delivery_events].
    unfold verdict at 1 3. destruct (handled body); reflexivity.
  - intros e He. destruct (Hraise e He) as [es0 [-> Hr]].
    exists ([WaitDelivery] ++ [Dispatch tag body] ++ (logs ++ [verdict tag body]) ++ es0).
    split.
    + cbn [app]. rewrite <- !app_assoc. reflexivity.
    + rewrite <- Hr. f_equal. rewrite <- !app_assoc. reflexivity.
Qed.

End Settling.


(** X11.  On a channel that accepts settlements, no message can make the consumer
    loop fail: what [start_consuming] raises was raised by the wait for the
    next delivery, as its last call. *)
Theorem consumer_loop_survives_messages
    (E : Env) (channel : Channel) (fuel : nat) (h : list event) (e : Py.exn) :
  (forall h' tag, raises E h' (BasicAck tag) = None) ->
  (forall h' tag requeue, raises E h' (BasicNack tag requeue) = None) ->
  fst (Processor.start_consuming fuel channel E h) = Raise e ->
  exists es0,
    snd (Processor.start_consuming fuel channel E h) = es0 ++ [WaitDelivery] /\
    raises E (h ++ es0) WaitDelivery = Some e.
Proof.
  intros Hack Hnack.
  exact (proj2 (start_consuming_settles E Hack Hnack channel fuel h) e).
Qed.


Example two_deliveries_settled :
  delivery_events
    (snd (Processor.start_consuming 5 0%nat
            (interrupted_after 2 [sample_body; "[1, 2]"]) []))
  = [Dispatch 1 sample_body; BasicAck 1; Dispatch 2 "[1, 2]"; BasicNack 2 false].
Proof. vm_compute. reflexivity. Qed.

Lemma consumer_loop_survives_messages_witness :
  let E := interrupted_after 2 [sample_body; "[1, 2]"] in
  fst (Processor.start_consuming 5 0%nat E []) = Raise interrupt /\
  exists es0,
    snd (Processor.start_consuming 5 0%nat E []) = es0 ++ [WaitDelivery] /\
    raises E ([] ++ es0) WaitDelivery = Some interrupt.
Proof.
  split; [vm_compute; reflexivity|].
  apply (consumer_loop_survives_messages
           (interrupted_after 2 [sample_body; "[1, 2]"]) 0%nat 5 [] interrupt).
  - intros h' tag. reflexivity.
  - intros h' tag requeue. reflexivity.
  - vm_compute. reflexivity.
Defined.

(** ** Log lines *)

Ltac ndiv := zify; Z.to_euclidean_division_equations; lia.

Lemma chr_code a : Json.chr (Json.code a) = a.
Proof. apply ascii_N_embedding. Qed.

Lemma code_chr n : (n < 256)%N -> Json.code (Json.chr n) = n.
Proof. apply N_ascii_embedding. Qed.


Lemma below_16 (P : N -> Prop) :
  P 0%N -> P 1%N -> P 2%N -> P 3%N -> P 4%N -> P 5%N -> P 6%N -> P 7%N ->
  P 8%N -> P 9%N -> P 10%N -> P 11%N -> P 12%N -> P 13%N -> P 14%N -> P 15%N ->
  forall d, (d < 16)%N -> P d.
Proof.
  intros H0 H1 H2 H3 H4 H5 H6 H7 H8 H9 H10 H11 H12 H13 H14 H15 d Hd.
  destruct d as [|p]; [exact H0|].
  do 4 (destruct p as [p|p|]; try assumption); lia.
Qed.










(** ** Reading string literals back *)

Lemma escape_ascii a s1 :
  (Json.code a <? 128)%N = true ->
  Json.escape (String a s1) = Json.escape (String a "") +:+ Json.escape s1.
Proof.
  destruct a as [[] [] [] [] [] [] [] []]; intros H; try discriminate H;
    reflexivity.
Qed.

Lemma scanstring_ascii a fuel T :
  (Json.code a <? 128)%N = true ->
  Json.scanstring (S fuel) (Json.escape (String a "") +:+ T) =
  match Json.scanstring fuel T with
  | Some (t, r) => Some (String a t, r)
  | None => None
  end.
Proof.
  destruct a as [[] [] [] [] [] [] [] []]; intros H; try discriminate H;
    reflexivity.
Qed.

Lemma escape_ascii_length a :
  (Json.code a <? 128)%N = true ->
  (1 <= String.length (Json.escape (String a "")))%nat.
Proof.
  destruct a as [[] [] [] [] [] [] [] []]; intros H; try discriminate H;
    apply Nat.leb_le; reflexivity.
Qed.

Lemma hex_value_hex_digit d :
  (d < 16)%N -> Json.hex_value (Json.hex_digit d) = Some d.
Proof. revert d. apply below_16; reflexivity. Qed.

Lemma hex4_escape_u u T :
  (u < 65536)%N ->
  Json.hex4
    (String (Json.hex_digit (u / 4096))
       (String (Json.hex_digit ((u / 256) mod 16))
          (String (Json.hex_digit ((u / 16) mod 16))
             (String (Json.hex_digit (u mod 16)) T))))
  = Some (u, T).
Proof.
  intros Hu. unfold Json.hex4.
  rewrite !hex_value_hex_digit by ndiv.
  do 2 f_equal. ndiv.
Qed.

Lemma escape_u_append u T :
  Json.escape_u u +:+ T =
  String "\" (String "u"
    (String (Json.hex_digit (u / 4096))
       (String (Json.hex_digit ((u / 256) mod 16))
          (String (Json.hex_digit ((u / 16) mod 16))
             (String (Json.hex_digit (u mod 16)) T))))).
Proof. reflexivity. Qed.

Lemma scanstring_backslash_u fuel T :
  Json.scanstring (S fuel) (String "\" (String "u" T)) =
  match Json.unicode_escape T with
  | Some (u, r) =>
      match Json.scanstring fuel r with
      | Some (t, r') => Some (Json.utf8_encode u +:+ t, r')
      | None => None
      end
  | None => None
  end.
Proof. reflexivity. Qed.

(** One escape that is not a high surrogate is read back as its code
    point. *)
Lemma scanstring_escape_u u fuel T :
  (u < 65536)%N -> Json.between 55296 u 56319 = false ->
  Json.scanstring (S fuel) (Json.escape_u u +:+ T) =
  match Json.scanstring fuel T with
  | Some (t, r) => Some (Json.utf8_encode u +:+ t, r)
  | None => None
  end.
Proof.
  intros Hu Hs. rewrite escape_u_append, scanstring_backslash_u.
  unfold Json.unicode_escape. rewrite (hex4_escape_u u T Hu), Hs. reflexivity.
Qed.

(** A surrogate pair is read back as the code point it stands for. *)
Lemma scanstring_escape_pair u fuel T :
  (65536 <= u < 1114112)%N ->
  Json.scanstring (S fuel) (Json.escape_code_point u +:+ T) =
  match Json.scanstring fuel T with
  | Some (t, r) => Some (Json.utf8_encode u +:+ t, r)
  | None => None
  end.
Proof.
  intros Hu. unfold Json.escape_code_point.
  destruct (u <? 65536)%N eqn:H; [apply N.ltb_lt in H; lia|]. cbv zeta.
  rewrite append_assoc, escape_u_append, scanstring_backslash_u.
  unfold Json.unicode_escape. rewrite hex4_escape_u by ndiv.
  assert (Hhi : Json.between 55296 (55296 + (u - 65536) / 1024) 56319 = true).
  { unfold Json.between. apply andb_true_intro.
    split; apply N.leb_le; ndiv. }
  rewrite Hhi, escape_u_append, hex4_escape_u by ndiv.
  assert (Hlo : Json.between 56320 (56320 + (u - 65536) mod 1024) 57343 = true).
  { unfold Json.between. apply andb_true_intro.
    split; apply N.leb_le; ndiv. }
  rewrite Hlo.
  replace (65536 + (55296 + (u - 65536) / 1024 - 55296) * 1024
           + (56320 + (u - 65536) mod 1024 - 56320))%N with u by ndiv.
  reflexivity.
Qed.

Lemma between_spec lo n hi :
  Json.between lo n hi = true <-> (lo <= n <= hi)%N.
Proof.
  unfold Json.between. rewrite andb_true_iff, !N.leb_le. tauto.
Qed.

Lemma between_false lo n hi :
  (n < lo \/ hi < n)%N -> Json.between lo n hi = false.
Proof.
  intros H. unfold Json.between. apply andb_false_iff.
  rewrite !N.leb_gt. tauto.
Qed.

Lemma escape_code_point_small u :
  (u < 65536)%N -> Json.escape_code_point u = Json.escape_u u.
Proof.
  intros Hu. unfold Json.escape_code_point.
  apply N.ltb_lt in Hu. rewrite Hu. reflexivity.
Qed.

(** The code point that [escape] reads in a well-formed sequence of two,
    three or four bytes is encoded as these bytes. *)
Lemma utf8_encode_2 a b :
  Json.between 194 (Json.code a) 223 = true -> Json.cont b = true ->
  let u := ((Json.code a mod 32) * 64 + Json.code b mod 64)%N in
  Json.utf8_encode u = String a (String b "") /\ (128 <= u < 2048)%N.
Proof.
  intros Ha Hb. apply between_spec in Ha, Hb. cbv zeta.
  set (u := ((Json.code a mod 32) * 64 + Json.code b mod 64)%N).
  assert (Hu : (128 <= u < 2048)%N) by (subst u; ndiv).
  split; [|exact Hu]. unfold Json.utf8_encode.
  destruct (u <? 128)%N eqn:H1; [apply N.ltb_lt in H1; lia|].
  destruct (u <? 2048)%N eqn:H2; [|apply N.ltb_ge in H2; lia].
  replace (192 + u / 64)%N with (Json.code a) by (subst u; ndiv).
  replace (128 + u mod 64)%N with (Json.code b) by (subst u; ndiv).
  rewrite !chr_code. reflexivity.
Qed.

Lemma utf8_encode_3 a b c :
  Json.between 224 (Json.code a) 239 = true ->
  (if (Json.code a =? 224)%N then Json.between 160 (Json.code b) 191
   else if (Json.code a =? 237)%N then Json.between 128 (Json.code b) 159
   else Json.cont b) = true ->
  Json.cont c = true ->
  let u := ((Json.code a mod 16) * 4096 + (Json.code b mod 64) * 64
            + Json.code c mod 64)%N in
  Json.utf8_encode u = String a (String b (String c "")) /\
  (2048 <= u < 65536)%N /\ (u < 55296 \/ 57344 <= u)%N.
Proof.
  intros Ha Hb Hc. apply between_spec in Ha, Hc. cbv zeta.
  set (u := ((Json.code a mod 16) * 4096 + (Json.code b mod 64) * 64
             + Json.code c mod 64)%N).
  assert (Hy : (128 <= Json.code b <= 191)%N /\
               (Json.code a = 224 -> 160 <= Json.code b)%N /\
               (Json.code a = 237 -> Json.code b <= 159)%N).
  { destruct (Json.code a =? 224)%N eqn:E224.
    - apply between_spec in Hb. apply N.eqb_eq in E224. lia.
    - apply N.eqb_neq in E224. destruct (Json.code a =? 237)%N eqn:E237.
      + apply between_spec in Hb. apply N.eqb_eq in E237. lia.
      + apply between_spec in Hb. apply N.eqb_neq in E237. lia. }
  destruct Hy as (Hy & Hy224 & Hy237).
  assert (Hu : (2048 <= u < 65536)%N /\ (u < 55296 \/ 57344 <= u)%N)
    by (subst u; ndiv).
  split; [|exact Hu]. unfold Json.utf8_encode.
  destruct (u <? 128)%N eqn:H1; [apply N.ltb_lt in H1; lia|].
  destruct (u <? 2048)%N eqn:H2; [apply N.ltb_lt in H2; lia|].
  destruct (u <? 65536)%N eqn:H3; [|apply N.ltb_ge in H3; lia].
  replace (224 + u / 4096)%N with (Json.code a) by (subst u; ndiv).
  replace (128 + (u / 64) mod 64)%N with (Json.code b) by (subst u; ndiv).
  replace (128 + u mod 64)%N with (Json.code c) by (subst u; ndiv).
  rewrite !chr_code. reflexivity.
Qed.

Lemma utf8_encode_4 a b c d :
  Json.between 240 (Json.code a) 244 = true ->
  (if (Json.code a =? 240)%N then Json.between 144 (Json.code b) 191
   else if (Json.code a =? 244)%N then Json.between 128 (Json.code b) 143
   else Json.cont b) = true ->
  Json.cont c = true -> Json.cont d = true ->
  let u := ((Json.code a mod 8) * 262144 + (Json.code b mod 64) * 4096
            + (Json.code c mod 64) * 64 + Json.code d mod 64)%N in
  Json.utf8_encode u = String a (String b (String c (String d ""))) /\
  (65536 <= u < 1114112)%N.
Proof.
  intros Ha Hb Hc Hd. apply between_spec in Ha, Hc, Hd. cbv zeta.
  set (u := ((Json.code a mod 8) * 262144 + (Json.code b mod 64) * 4096
             + (Json.code c mod 64) * 64 + Json.code d mod 64)%N).
  assert (Hy : (128 <= Json.code b <= 191)%N /\
               (Json.code a = 240 -> 144 <= Json.code b)%N /\
               (Json.code a = 244 -> Json.code b <= 143)%N).
  { destruct (Json.code a =? 240)%N eqn:E240.
    - apply between_spec in Hb. apply N.eqb_eq in E240. lia.
    - apply N.eqb_neq in E240. destruct (Json.code a =? 244)%N eqn:E244.
      + apply between_spec in Hb. apply N.eqb_eq in E244. lia.
      + apply between_spec in Hb. apply N.eqb_neq in E244. lia. }
  destruct Hy as (Hy & Hy240 & Hy244).
  assert (Hu : (65536 <= u < 1114112)%N) by (subst u; ndiv).
  split; [|exact Hu]. unfold Json.utf8_encode.
  destruct (u <? 128)%N eqn:H1; [apply N.ltb_lt in H1; lia|].
  destruct (u <? 2048)%N eqn:H2; [apply N.ltb_lt in H2; lia|].
  destruct (u <? 65536)%N eqn:H3; [apply N.ltb_lt in H3; lia|].
  replace (240 + u / 262144)%N with (Json.code a) by (subst u; ndiv).
  replace (128 + (u / 4096) mod 64)%N with (Json.code b) by (subst u; ndiv).
  replace (128 + (u / 64) mod 64)%N with (Json.code c) by (subst u; ndiv).
  replace (128 + u mod 64)%N with (Json.code d) by (subst u; ndiv).
  rewrite !chr_code. reflexivity.
Qed.

Lemma scanstring_close fuel T :
  Json.scanstring (S fuel) (String Json.dq T) = Some ("", T).
Proof. reflexivity. Qed.

Lemma escape_u_length u : String.length (Json.escape_u u) = 6%nat.
Proof. reflexivity. Qed.

Lemma escape_code_point_length u :
  (1 <= String.length (Json.escape_code_point u))%nat.
Proof.
  unfold Json.escape_code_point. destruct (u <? 65536)%N; cbv zeta;
    rewrite ?length_append, ?escape_u_length; lia.
Qed.

(** The scanner reads the body of the literal of a UTF-8 text back, up to
    the closing quote. *)
Lemma scanstring_escape_bounded n :
  forall s, (String.length s <= n)%nat -> Json.utf8_valid s = true ->
  forall fuel T,
    (String.length (Json.escape s) < fuel)%nat ->
    Json.scanstring fuel (Json.escape s +:+ String Json.dq T) = Some (s, T).
Proof.
  induction n as [|n IH]; intros s Hn Hv fuel T Hf.
  { destruct s; [|cbn in Hn; lia].
    destruct fuel; [cbn in Hf; lia|]. apply scanstring_close. }
  destruct fuel as [|fuel]; [lia|].
  destruct s as [|a s1]; [apply scanstring_close|].
  cbn [String.length] in Hn.
  unfold Json.utf8_valid in Hv; fold Json.utf8_valid in Hv. cbv zeta in Hv.
  destruct (Json.code a <? 128)%N eqn:H128.
  { rewrite (escape_ascii a s1 H128) in Hf |- *.
    rewrite length_append in Hf.
    pose proof (escape_ascii_length a H128) as Hl.
    rewrite append_assoc, (scanstring_ascii a fuel _ H128).
    rewrite (IH s1); [reflexivity | lia | exact Hv | lia]. }
  apply N.ltb_ge in H128.
  destruct s1 as [|b s2]; [discriminate|].
  cbn [String.length] in Hn.
  revert Hf. cbn [Json.escape]. cbv zeta.
  destruct (Json.code a <? 128)%N eqn:H128'; [apply N.ltb_lt in H128'; lia|].
  destruct (Json.between 194 (Json.code a) 223) eqn:H2.
  { apply andb_prop in Hv as [Hb Hv].
    destruct (utf8_encode_2 a b H2 Hb) as [Henc Hu].
    apply between_spec in H2.
    destruct (Json.code a <? 224)%N eqn:H224; [|apply N.ltb_ge in H224; lia].
    rewrite escape_code_point_small by lia.
    rewrite length_append, escape_u_length. intros Hf.
    rewrite append_assoc, scanstring_escape_u;
      [|lia|apply between_false; lia].
    rewrite (IH s2); [|lia|exact Hv|lia].
    rewrite Henc. reflexivity. }
  assert (H224 : (Json.code a <? 224)%N = false).
  { destruct s2 as [|c s3]; [discriminate|].
    destruct (Json.between 224 (Json.code a) 239) eqn:H3.
    - apply between_spec in H3. apply N.ltb_ge. lia.
    - destruct s3 as [|d s4]; [discriminate|].
      apply andb_prop in Hv as [Hv _]. apply andb_prop in Hv as [Hv _].
      apply andb_prop in Hv as [Hv _]. apply andb_prop in Hv as [Hv _].
      apply between_spec in Hv. apply N.ltb_ge. lia. }
  rewrite H224.
  destruct s2 as [|c s3]; [discriminate|].
  cbn [String.length] in Hn.
  destruct (Json.between 224 (Json.code a) 239) eqn:H3.
  { apply andb_prop in Hv as [Hv Hrest]. apply andb_prop in Hv as [Hb Hc].
    destruct (utf8_encode_3 a b c H3 Hb Hc) as [Henc [Hu Hns]].
    apply between_spec in H3.
    destruct (Json.code a <? 240)%N eqn:H240; [|apply N.ltb_ge in H240; lia].
    rewrite escape_code_point_small by lia.
    rewrite length_append, escape_u_length. intros Hf.
    rewrite append_assoc, scanstring_escape_u;
      [|lia|apply between_false; lia].
    rewrite (IH s3); [|lia|exact Hrest|lia].
    rewrite Henc. reflexivity. }
  destruct s3 as [|d s4]; [discriminate|].
  cbn [String.length] in Hn.
  apply andb_prop in Hv as [Hv Hrest]. apply andb_prop in Hv as [Hv Hd].
  apply andb_prop in Hv as [Hv Hc]. apply andb_prop in Hv as [H4 Hb].
  destruct (utf8_encode_4 a b c d H4 Hb Hc Hd) as [Henc Hu].
  apply between_spec in H4.
  destruct (Json.code a <? 240)%N eqn:H240; [apply N.ltb_lt in H240; lia|].
  rewrite length_append. intros Hf.
  match goal with
  | |- context [Json.escape_code_point ?u] =>
      pose proof (escape_code_point_length u) as Hl
  end.
  rewrite append_assoc, scanstring_escape_pair by exact Hu.
  rewrite (IH s4); [|lia|exact Hrest|lia].
  rewrite Henc. reflexivity.
Qed.

Lemma scanstring_escape s fuel T :
  Json.utf8_valid s = true ->
  (String.length (Json.escape s) < fuel)%nat ->
  Json.scanstring fuel (Json.escape s +:+ String Json.dq T) = Some (s, T).
Proof.
  intros Hv Hf.
  apply (scanstring_escape_bounded (String.length s) s); [lia|exact Hv|exact Hf].
Qed.

(** ** Reading objects of texts back *)

(** The scanner reads the literal of a UTF-8 text back. *)
Lemma scan_once_quote_text fuel s rest :
  Json.utf8_valid s = true ->
  Json.scan_once (S fuel) (Json.quote s +:+ rest) = Some (JStr s, rest).
Proof.
  intros Hs. unfold Json.quote. rewrite append_String.
  cbn [Json.scan_once]. cbv zeta.
  change (Json.code Json.dq =? 34)%N with true. cbv iota.
  rewrite append_assoc, append_String, append_Empty.
  rewrite scanstring_escape; [reflexivity | exact Hs |].
  rewrite length_append. cbn. lia.
Qed.

Lemma scan_once_text fuel v rest :
  text_value v -> closes_value rest -> (0 < fuel)%nat ->
  Json.scan_once fuel (Json.dumps v +:+ rest) = Some (v, rest)
  /\ Json.skip_ws (Json.dumps v +:+ rest) = Json.dumps v +:+ rest.
Proof.
  intros Hv Hr Hf. destruct fuel as [|fuel]; [lia|].
  destruct v; try contradiction; cbn [Json.dumps].
  - split; [apply scan_once_str_of_int, Hr | apply skip_ws_str_of_int].
  - split; [apply scan_once_quote_text, Hv | apply skip_ws_quote].
Qed.

(** The scanner reads the pairs of an object of texts back. *)
Lemma scan_pairs_text fields :
  forall acc fuel rest,
    fields <> [] -> text_fields fields -> (List.length fields < fuel)%nat ->
    Json.scan_pairs fuel (Json.dumps_pairs Json.dumps fields +:+ String "}" rest) acc
    = Some (JObj (dict_of acc fields), rest).
Proof.
  induction fields as [|[k x] l IH]; intros acc fuel rest Hne Hflat Hfuel;
    [congruence|].
  inversion Hflat as [|? ? [Hk Hx] Hl]; subst. cbn [fst snd] in Hk, Hx.
  destruct fuel as [|fuel]; [cbn in Hfuel; lia|].
  assert (Hf : (0 < fuel)%nat) by (cbn in Hfuel; lia).
  rewrite dumps_pairs_cons. unfold Json.quote at 1.
  rewrite !append_assoc, !append_String, !append_Empty.
  remember (match l with
            | [] => ""
            | _ :: _ => String "," (String " " (Json.dumps_pairs Json.dumps l))
            end +:+ String "}" rest) as T eqn:HeqT.
  assert (HT : closes_value T)
    by (subst T; destruct l; [right|left]; eexists; reflexivity).
  destruct (scan_once_text fuel x T Hx HT Hf) as [Hscan Hskip].
  cbn [Json.scan_pairs].
  change (Json.code Json.dq =? 34)%N with true. cbn [negb].
  rewrite (escape_plain k Hk), append_assoc, !append_String, !append_Empty.
  rewrite scanstring_plain; [|exact Hk|rewrite length_append; cbn; lia].
  rewrite skip_ws_colon, skip_ws_space, Hskip, Hscan.
  subst T. destruct l as [|[k' x'] l'].
  - rewrite append_Empty, skip_ws_brace. reflexivity.
  - rewrite !append_String, skip_ws_comma, skip_ws_space.
    replace (Json.skip_ws (Json.dumps_pairs Json.dumps ((k', x') :: l')
                           +:+ String "}" rest))
      with (Json.dumps_pairs Json.dumps ((k', x') :: l') +:+ String "}" rest)
      by reflexivity.
    apply IH; [discriminate | exact Hl | cbn in Hfuel |- *; lia].
Qed.

(** [json.loads(json.dumps(d)) == d] for an object [d] of texts that is not
    empty. *)
Lemma loads_dumps_text fields :
  fields <> [] -> text_fields fields ->
  Json.loads (Json.dumps (JObj fields)) = Some (JObj (dict_of [] fields)).
Proof.
  intros Hne Hflat. unfold Json.loads. rewrite dumps_object.
  rewrite append_String, append_Empty.
  pose proof (dumps_pairs_length Json.dumps fields) as Hlen.
  cbn [String.length]. rewrite length_append.
  replace (2 * S (String.length (Json.dumps_pairs Json.dumps fields)
                  + String.length "}") + 2)%nat
    with (S (2 * String.length (Json.dumps_pairs Json.dumps fields) + 5))%nat
    by (cbn [String.length]; lia).
  replace (Json.skip_ws (String "{" (Json.dumps_pairs Json.dumps fields +:+ "}")))
    with (String "{" (Json.dumps_pairs Json.dumps fields +:+ "}"))
    by reflexivity.
  assert (Hs : exists s, Json.dumps_pairs Json.dumps fields +:+ "}"
                         = String Json.dq s).
  { destruct fields as [|[k x] l]; [congruence|].
    rewrite dumps_pairs_cons. unfold Json.quote.
    rewrite !append_String. eexists. reflexivity. }
  destruct Hs as [s Hs]. rewrite Hs, scan_once_object, <- Hs.
  rewrite scan_pairs_text; [reflexivity | exact Hne | exact Hflat | lia].
Qed.

(** ** The JSON formatter *)

Lemma log_entry_cases service_name now record :
  JSONFormatter.log_entry service_name now record =
  [ ("timestamp", JStr (isoformat now +:+ "Z"));
    ("level", JStr (levelname record));
    ("service_name", JStr service_name);
    ("message", JStr (getMessage record)) ]
  ++ match exc_info record with
     | Some text => [("exception", JStr text)]
     | None => []
     end.
Proof.
  unfold JSONFormatter.log_entry. destruct (exc_info record); reflexivity.
Qed.


Example log_line_of_two_lines :
  printable (String (Json.chr 10) "second line") = false /\
  printable
    (Json.dumps
       (JObj (JSONFormatter.log_entry "ingestor" noon
                (mk_record "ERROR" (String (Json.chr 10) "second line") None))))
  = true.
Proof. split; vm_compute; reflexivity. Qed.

Lemma plain_utf8 s : Json.all_plain s = true -> Json.utf8_valid s = true.
Proof. intros H. apply utf8_valid_ascii, all_plain_ascii, H. Qed.

(** X13.  A log line is read back by [json.loads] as the object with the fields
    [timestamp], [level], [service_name] and [message], in this order,
    followed by [exception] exactly when the record carries exception
    information; every field holds the text it was given. *)
Theorem log_line_reads_back
    (service_name : string) (record : LogRecord) (E : Env) (h : list event) :
  Json.utf8_valid service_name = true ->
  Json.utf8_valid (levelname record) = true ->
  Json.utf8_valid (getMessage record) = true ->
  (forall text, exc_info record = Some text -> Json.utf8_valid text = true) ->
  exists line,
    JSONFormatter.format service_name record E h = (Ok line, []) /\
    Json.loads line =
    Some (JObj ([ ("timestamp", JStr (isoformat (utcnow E h) +:+ "Z"));
                  ("level", JStr (levelname record));
                  ("service_name", JStr service_name);
                  ("message", JStr (getMessage record)) ]
                ++ match exc_info record with
                   | Some text => [("exception", JStr text)]
                   | None => []
                   end)).
Proof.
  intros Hs Hl Hm Hx. eexists. split; [reflexivity|].
  rewrite log_entry_cases.
  pose proof (plain_utf8 _ (isoformat_plain (utcnow E h))) as Ht.
  destruct (exc_info record) as [text|] eqn:Hexc.
  - specialize (Hx text eq_refl).
    rewrite loads_dumps_text; [reflexivity|discriminate|].
    repeat constructor; assumption.
  - rewrite loads_dumps_text; [reflexivity|discriminate|].
    repeat constructor; assumption.
Qed.

Lemma log_line_reads_back_witness :
  let text := "Failed: " +:+ String Json.dq (String (Json.chr 195)
                (String (Json.chr 169) (String (Json.chr 10) "x"))) in
  let record := mk_record "ERROR" text (Some text) in
  exists line,
    JSONFormatter.format "processor" record quiet [] = (Ok line, []) /\
    Json.loads line =
    Some (JObj ([ ("timestamp", JStr (isoformat (utcnow quiet []) +:+ "Z"));
                  ("level", JStr (levelname record));
                  ("service_name", JStr "processor");
                  ("message", JStr (getMessage record)) ]
                ++ match exc_info record with
                   | Some text => [("exception", JStr text)]
                   | None => []
                   end)).
Proof.
  cbv zeta.
  apply (log_line_reads_back "processor"); try reflexivity.
  intros text [= <-]. reflexivity.
Defined.

(** ** The root logger *)

Lemma remove_all_handlers n l :
  fold_left Logging.removeHandler l (Logging.mk_logger n l)
  = Logging.mk_logger n [].
Proof.
  induction l as [|x l IH]; [reflexivity|].
  cbn [fold_left]. unfold Logging.removeHandler at 2.
  cbn [Logging.handlers Logging.level existsb Logging.list_remove].
  unfold Logging.same. rewrite Nat.eqb_refl. cbn [orb]. exact IH.
Qed.

(** X14.  [setup_logging] either raises an [Exception] (the value of [LOG_LEVEL]
    names no attribute of the module, or one that is not a level) and leaves
    the root logger as it was, or sets the level that the name stands for and
    leaves the root logger with one handler, the new console handler with the
    JSON formatter of the service, whatever handlers it had before. *)
Theorem setup_logging_replaces_handlers
    (getattr_logging : string -> option Logging.value)
    (nameToLevel : string -> option Z)
    (service_name : string) (LOG_LEVEL : option string) (st : Logging.State) :
  match Logging.setup_logging getattr_logging nameToLevel service_name LOG_LEVEL st with
  | (Ok _, st') =>
      Logging.handlers (Logging.root st')
        = [Logging.mk_handler (Logging.made st) (Some service_name)] /\
      exists v,
        getattr_logging (getenv LOG_LEVEL "INFO") = Some v /\
        Logging.checkLevel nameToLevel v = inl (Logging.level (Logging.root st'))
  | (Raise e, st') => st' = st /\ Py.is_Exception e = true
  | (Running, _) => False
  end.
Proof.
  unfold Logging.setup_logging.
  destruct (getattr_logging (getenv LOG_LEVEL "INFO")) as [v|];
    [|split; reflexivity].
  destruct (Logging.checkLevel nameToLevel v) as [n|e] eqn:Hv.
  - cbv zeta. cbn [Logging.handlers]. rewrite remove_all_handlers.
    split; [reflexivity|]. exists v. split; [reflexivity|exact Hv].
  - split; [reflexivity|].
    destruct v as [n|s|]; cbn in Hv; [discriminate| |].
    + destruct (nameToLevel s); [discriminate|]. injection Hv as <-. reflexivity.
    + injection Hv as <-. reflexivity.
Qed.

Example setup_logging_twice :
  let setup :=
    Logging.setup_logging Logging.level_names (fun _ => None) "ingestor" in
  let st0 := Logging.mk_state (Logging.mk_logger 30 []) 0 in
  snd (setup (Some "DEBUG") (snd (setup None st0)))
  = Logging.mk_state
      (Logging.mk_logger 10 [Logging.mk_handler 1 (Some "ingestor")]) 2
  /\ setup (Some "debug") st0
     = (Raise (Py.mk_exn Py.TypeError "Level not an integer or a valid string"),
        st0).
Proof. split; reflexivity. Qed.

(** ** Declaring before publishing *)

Lemma filter_none (f : event -> bool) es :
  Forall (fun ev => f ev = false) es -> filter f es = [].
Proof.
  induction 1 as [|ev es Hev _ IH]; [reflexivity|].
  cbn. rewrite Hev. exact IH.
Qed.

Lemma publish_loop_queue_calls E channel queue_name interval fuel :
  forall message_counter h,
  exists bodies tail,
    filter is_queue_call
      (snd (Ingestor.publish_loop fuel channel queue_name interval message_counter E h))
    = flat_map (fun body => [QueueDeclare queue_name true;
                             BasicPublish "" queue_name body 2]) bodies ++ tail
    /\ (tail = [] \/ tail = [QueueDeclare queue_name true]).
Proof.
  induction fuel as [|fuel IH]; intros c h.
  { exists [], []. split; [reflexivity|left; reflexivity]. }
  cbn [Ingestor.publish_loop]. unfold bind at 1. unfold datetime_utcnow at 1.
  rewrite app_nil_r. cbn [app].
  unfold bind at 1. rewrite publish_message_eq. cbv zeta.
  destruct (raises E h _) as [e|].
  { exists [], [QueueDeclare queue_name true].
    split; [|right; reflexivity]. destruct (Py.is_Exception e); reflexivity. }
  destruct (raises E (h ++ _) _) as [e|].
  { eexists [_], []. split; [|left; reflexivity].
    destruct (Py.is_Exception e); reflexivity. }
  unfold bind at 1. unfold time_sleep.
  destruct (interval <? 0).
  { eexists [_], []. split; [reflexivity|left; reflexivity]. }
  unfold call at 1.
  destruct (raises E _ (Sleep interval)) as [e|].
  { eexists [_], []. split; [reflexivity|left; reflexivity]. }
  match goal with
  | |- context [Ingestor.publish_loop fuel channel queue_name interval (c + 1) E ?h'] =>
      destruct (IH (c + 1) h') as [bodies [tail [Hb Ht]]];
      destruct (Ingestor.publish_loop fuel channel queue_name interval (c + 1) E h')
        as [r es]
  end.
  cbn [snd] in Hb.
  eexists (_ :: bodies), tail. split; [|exact Ht].
  cbn [snd app filter is_queue_call flat_map]. rewrite Hb. reflexivity.
Qed.

(** X15.  The ingestor declares the queue before each publish: its calls on the
    queue are pairs of a durable declaration and one publish to the same
    queue, followed at most by one last declaration. *)
Theorem queue_declared_before_each_publish
    (environ : Environ) (fuel : nat) (E : Env) (h : list event) :
  let queue_name := getenv (RABBITMQ_QUEUE environ) "game_events" in
  exists bodies tail,
    filter is_queue_call (snd (Ingestor.main environ fuel E h))
    = flat_map (fun body => [QueueDeclare queue_name true;
                             BasicPublish "" queue_name body 2]) bodies ++ tail
    /\ (tail = [] \/ tail = [QueueDeclare queue_name true]).
Proof.
  cbv zeta.
  unfold Ingestor.main. unfold bind at 1. unfold logger_info at 1.
  unfold bind at 1. unfold create_rabbitmq_connection.
  pose proof (connect_loop_emits environ E fuel 1
                (h ++ [LogInfo "NFL Ingestor service starting up"])) as Hc.
  assert (Hq : forall es, Forall (fun ev => is_housekeeping ev = true) es ->
                          filter is_queue_call es = []).
  { intros es Hes. apply filter_none. eapply Forall_impl; [|exact Hes].
    intros [] Hev; try discriminate; reflexivity. }
  destruct (connect_loop environ fuel 1 E _) as [[c| e |] esc]; cbn [snd] in Hc;
    apply Hq in Hc.
  2,3: exists [], []; cbn [snd app filter is_queue_call flat_map]; rewrite Hc;
       split; [reflexivity|left; reflexivity].
  unfold bind at 1. unfold call at 1.
  destruct (raises E _ (OpenChannel c)) as [e|].
  { exists [], []. cbn [snd app filter is_queue_call flat_map].
    rewrite filter_app, Hc. split; [reflexivity|left; reflexivity]. }
  unfold try_finally, Ingestor.guarded_loop, try_except.
  unfold bind at 1. unfold logger_info at 1.
  match goal with
  | |- context [Ingestor.publish_loop fuel c ?q ?i 1 E ?h'] =>
      destruct (publish_loop_queue_calls E c q i fuel 1 h')
        as [bodies [tail [Hb Ht]]];
      destruct (Ingestor.publish_loop fuel c q i 1 E h') as [r es]
  end.
  cbn [snd] in Hb. exists bodies, tail. split; [|exact Ht].
  destruct r as [[]|e|]; cbn [snd app];
    try (destruct (Py.is_KeyboardInterrupt e); [|destruct (Py.is_Exception e)]);
    unfold logger_info, logger_error; cbn [fst snd app];
    rewrite ?ingestor_shutdown_eq;
    try (destruct (raises E _ (Close c)));
    cbn [snd app filter is_queue_call];
    rewrite !filter_app, Hc, ?Hb; cbn [filter is_queue_call app];
    rewrite ?filter_app, ?Hb; cbn [filter is_queue_call app];
    rewrite ?app_nil_r; reflexivity.
Qed.

(** ** What the two programs never do *)

(** X16.  Over a whole run, the processor never publishes and never asks for a
    requeue, consumes from the configured queue only and sets no prefetch
    count but 1; the ingestor never consumes, never sets a prefetch count
    and never settles a delivery. *)
Theorem programs_keep_to_their_roles
    (environ : Environ) (fuel : nat) (E : Env) (h : list event) :
  let queue_name := getenv (RABBITMQ_QUEUE environ) "game_events" in
  (forall ev, In ev (snd (Processor.main environ fuel E h)) ->
     match ev with
     | BasicPublish _ _ _ _ => False
     | BasicNack _ requeue => requeue = false
     | BasicConsume queue => queue = queue_name
     | BasicQos prefetch_count => prefetch_count = 1
     | _ => True
     end) /\
  (forall ev, In ev (snd (Ingestor.main environ fuel E h)) ->
     match ev with
     | BasicConsume _ | BasicQos _ | WaitDelivery | Dispatch _ _
     | StopConsuming | BasicAck _ | BasicNack _ _ => False
     | _ => True
     end).
Proof.
  cbv zeta.
  pose proof (ingestor_main_emits environ fuel E h) as Hi.
  pose proof (processor_main_emits environ fuel E h) as Hp.
  rewrite Forall_forall in Hi, Hp.
  split; intros ev Hin.
  - destruct (Hp ev Hin) as [Hl|Hev]; destruct ev; try exact I;
      try discriminate Hl; try exact Hev; try contradiction.
  - destruct (Hi ev Hin) as [Hl|Hev]; destruct ev; try exact I;
      try discriminate Hl; try contradiction.
Qed.
